(** * Battery-age monitor: a shallow embedding of [src/battery_age/age.py]

    The script polls three push-button inputs (charge begin, charge complete,
    charge abort), keeps a two-mode monitoring flag, samples the battery
    voltage every sixtieth pass of its main loop while monitoring, and prints
    a capacity estimate when a new charge cycle begins.

    Conventions of the embedding.
    - Python floats are idealised as exact rationals [Q].  The only float
      behaviour the development relies on is that [x / y] raises
      [ZeroDivisionError] exactly when [y] equals zero, and that [x - x] is
      zero; rounding is outside the model.
    - The module-level variables of the script, the text written by [print]
      and a ghost count of sensor reads form the [world]; every block of the
      main loop is a computation in a state-and-exception monad, so that an
      uncaught exception leaves the world as it was at the point of the
      fault.
    - A printed line is kept as its format string together with the values
      substituted into it; the rendering of ["%4.2f"] is not modelled.
    - The hardware pins are read once per pass of the loop ([pins]). *)

From Stdlib Require Import QArith Qabs ZArith List String Bool Lia Lqa.
Import ListNotations.

Open Scope Q_scope.

(** ** Python run-time behaviour used by the script *)

Module Py.

(** The exceptions the modelled statements can raise. [SensorFault] stands
    for any exception coming out of the [AnalogIn] collaborator. *)
Inductive exn : Type :=
| ZeroDivisionError
| IndexError
| SensorFault.

Inductive result (A : Type) : Type :=
| Ok (a : A)
| Raise (e : exn).

Arguments Ok {A} a.
Arguments Raise {A} e.

(** A statement run from state [S]: its outcome and the state it leaves. *)
Definition M (S A : Type) : Type := S -> result A * S.

Definition ret {S A} (a : A) : M S A := fun s => (Ok a, s).

Definition raise {S A} (e : exn) : M S A := fun s => (Raise e, s).

Definition bind {S A B} (m : M S A) (k : A -> M S B) : M S B :=
  fun s =>
    match m s with
    | (Ok a, s1) => k a s1
    | (Raise e, s1) => (Raise e, s1)
    end.

Definition get {S A} (f : S -> A) : M S A := fun s => (Ok (f s), s).

Definition modify {S} (f : S -> S) : M S unit := fun s => (Ok tt, f s).

(** [x / y] on numbers: true division, faulting on a zero divisor. *)
Definition truediv {S} (x y : Q) : M S Q :=
  if Qeq_bool y 0 then raise ZeroDivisionError else ret (x / y).

Definition len {A} (l : list A) : Z := Z.of_nat (List.length l).

(** [sum(l)]: left-to-right addition starting from [0]. *)
Definition sum (l : list Q) : Q := fold_left Qplus l 0.

(** [l[i]] with Python's negative indices. *)
Definition getitem {S} (l : list Q) (i : Z) : M S Q :=
  let j := if (i <? 0)%Z then (i + len l)%Z else i in
  if (j <? 0)%Z then raise IndexError
  else match nth_error l (Z.to_nat j) with
       | Some x => ret x
       | None => raise IndexError
       end.

End Py.

Import Py.

Declare Scope py_scope.
Delimit Scope py_scope with py.
Notation "x <- m ;; k" := (bind m (fun x => k))
  (at level 61, m at next level, right associativity) : py_scope.
Notation "m ;; k" := (bind m (fun _ => k))
  (at level 61, right associativity) : py_scope.
Notation "x /! y" := (truediv x y) (at level 40, no associativity) : py_scope.
Open Scope py_scope.

(** ** The script *)

Module Age.

(** One printed line: the format string and the values substituted. *)
Record line : Type := Fmt { fmt : string; args : list Q }.

(** The levels of the hardware inputs during one pass of the main loop.
    A pressed button reads [false].  [voltage_sense] is the 16-bit value of
    the analog input, or [None] when reading it raises. *)
Record pins : Type := {
  s_charge_begin : bool;
  s_charge_complete : bool;
  s_charge_abort : bool;
  voltage_sense : option Z
}.

(** The module-level variables, the printed text, and the ghost counter of
    reads of [voltage_sense.value]. *)
Record world : Type := {
  b_cb_down : bool;
  b_cc_down : bool;
  b_ca_down : bool;
  monitoring : bool;
  voltage : list Q;
  half_sec : Z;
  stdout : list line;
  sensor_reads : nat
}.

Definition set_b_cb_down (b : bool) (w : world) : world :=
  {| b_cb_down := b; b_cc_down := b_cc_down w; b_ca_down := b_ca_down w;
     monitoring := monitoring w; voltage := voltage w;
     half_sec := half_sec w; stdout := stdout w;
     sensor_reads := sensor_reads w |}.

Definition set_b_cc_down (b : bool) (w : world) : world :=
  {| b_cb_down := b_cb_down w; b_cc_down := b; b_ca_down := b_ca_down w;
     monitoring := monitoring w; voltage := voltage w;
     half_sec := half_sec w; stdout := stdout w;
     sensor_reads := sensor_reads w |}.

Definition set_b_ca_down (b : bool) (w : world) : world :=
  {| b_cb_down := b_cb_down w; b_cc_down := b_cc_down w; b_ca_down := b;
     monitoring := monitoring w; voltage := voltage w;
     half_sec := half_sec w; stdout := stdout w;
     sensor_reads := sensor_reads w |}.

Definition set_monitoring (b : bool) (w : world) : world :=
  {| b_cb_down := b_cb_down w; b_cc_down := b_cc_down w;
     b_ca_down := b_ca_down w;
     monitoring := b; voltage := voltage w;
     half_sec := half_sec w; stdout := stdout w;
     sensor_reads := sensor_reads w |}.

Definition set_voltage (l : list Q) (w : world) : world :=
  {| b_cb_down := b_cb_down w; b_cc_down := b_cc_down w;
     b_ca_down := b_ca_down w;
     monitoring := monitoring w; voltage := l;
     half_sec := half_sec w; stdout := stdout w;
     sensor_reads := sensor_reads w |}.

Definition set_half_sec (h : Z) (w : world) : world :=
  {| b_cb_down := b_cb_down w; b_cc_down := b_cc_down w;
     b_ca_down := b_ca_down w;
     monitoring := monitoring w; voltage := voltage w;
     half_sec := h; stdout := stdout w;
     sensor_reads := sensor_reads w |}.

Definition set_stdout (o : list line) (w : world) : world :=
  {| b_cb_down := b_cb_down w; b_cc_down := b_cc_down w;
     b_ca_down := b_ca_down w;
     monitoring := monitoring w; voltage := voltage w;
     half_sec := half_sec w; stdout := o;
     sensor_reads := sensor_reads w |}.

Definition set_sensor_reads (n : nat) (w : world) : world :=
  {| b_cb_down := b_cb_down w; b_cc_down := b_cc_down w;
     b_ca_down := b_ca_down w;
     monitoring := monitoring w; voltage := voltage w;
     half_sec := half_sec w; stdout := stdout w;
     sensor_reads := n |}.

(** [print(f % xs)] *)
Definition print (f : string) (xs : list Q) : M world unit :=
  modify (fun w => set_stdout (stdout w ++ [Fmt f xs]) w).

(** Lines 20-24. *)
Definition load_resistance : Q := 15.
Definition samples_per_minute : Q := 2.
Definition minutes_per_hour : Q := 60.
Definition milliamps_per_amp : Q := 1000.

(** Lines 61-75: the state at the first pass of the loop. *)
Definition init : world :=
  {| b_cb_down := false; b_cc_down := false; b_ca_down := false;
     monitoring := false; voltage := []; half_sec := 0%Z;
     stdout := []; sensor_reads := 0%nat |}.

(** [voltage_sense.value] *)
Definition read_voltage_sense (p : pins) : M world Z :=
  modify (fun w => set_sensor_reads (S (sensor_reads w)) w) ;;
  match voltage_sense p with
  | Some value => ret value
  | None => raise SensorFault
  end.

(** Lines 77-86. *)
Definition get_volts (p : pins) : M world Q :=
  let a2d_analog_max := 3.3 in
  let a2d_digital_max := 65536 in
  let resistor_divider_ratio := 0.684 in
  value <- read_voltage_sense p ;;
  ad_volt <- (inject_Z value * a2d_analog_max) /! a2d_digital_max ;;
  ad_volt /! resistor_divider_ratio.

(** Lines 90-96. *)
Definition adjusted_cutoff (load_current : Q) : Q :=
  let slope := -0.449 in
  let intercept := 3.323 in
  slope * load_current + intercept.

(** The local variables of [estimate_capacity] when it returns.  The
    Python function returns [None]; the record is returned here so that
    statements about the intermediate values can be made. *)
Record locals : Type := {
  samples : Z;
  v_sum : Q;
  i_sum : Q;
  i_avg : Q;
  energy_used : Q;
  v_monitor_start : Q;
  v_monitor_end : Q;
  v_cutoff : Q;
  ratio : Q;
  energy_total : Q
}.

(** Lines 98-125. *)
Definition estimate_capacity : M world locals :=
  vs <- get voltage ;;
  let samples := len vs in
  minutes <- inject_Z samples /! samples_per_minute ;;
  print "capacity estimate after %4.2f minutes:" [minutes] ;;
  vs <- get voltage ;;
  let v_sum := sum vs in
  i_sum <- v_sum /! load_resistance ;;
  i_avg <- i_sum /! inject_Z samples ;;
  per_minute <- i_sum /! samples_per_minute ;;
  energy_used <- per_minute /! minutes_per_hour ;;
  print "average current = %4.2f mA" [i_avg * milliamps_per_amp] ;;
  print "capacity used = %5.2f mAh" [energy_used * milliamps_per_amp] ;;
  vs <- get voltage ;;
  v_monitor_start <- getitem vs 0 ;;
  print "voltage monitor start = %2.2f volts" [v_monitor_start] ;;
  vs <- get voltage ;;
  v_monitor_end <- getitem vs (-1) ;;
  print "voltage monitor end = %2.2f volts" [v_monitor_end] ;;
  let v_cutoff := adjusted_cutoff i_avg in
  print "adjusted voltage cutoff = %2.2f volts" [v_cutoff] ;;
  ratio <- (v_monitor_start - v_cutoff) /! (v_monitor_start - v_monitor_end) ;;
  let energy_total := ratio * energy_used in
  print "predicted total capacity = %5.2f mAh"
        [energy_total * milliamps_per_amp] ;;
  ret {| samples := samples; v_sum := v_sum; i_sum := i_sum;
         i_avg := i_avg; energy_used := energy_used;
         v_monitor_start := v_monitor_start;
         v_monitor_end := v_monitor_end; v_cutoff := v_cutoff;
         ratio := ratio; energy_total := energy_total |}.

(** Lines 129-131. *)
Definition advance_counter : M world unit :=
  modify (fun w => set_half_sec (half_sec w + 1)%Z w) ;;
  h <- get half_sec ;;
  if (h =? 60)%Z then modify (set_half_sec 0%Z) else ret tt.

(** Lines 133-146: the three release detectors.  Returns
    [(event_cb, event_cc, event_ca)]. *)
Definition detect_events (p : pins) : M world (bool * bool * bool) :=
  let event_cb := false in
  let event_cc := false in
  let event_ca := false in
  cb_down <- get b_cb_down ;;
  let event_cb := if cb_down && s_charge_begin p then true else event_cb in
  cc_down <- get b_cc_down ;;
  let event_cc := if cc_down && s_charge_complete p then true else event_cc in
  ca_down <- get b_ca_down ;;
  let event_ca := if ca_down && s_charge_abort p then true else event_ca in
  modify (set_b_cb_down (negb (s_charge_begin p))) ;;
  modify (set_b_cc_down (negb (s_charge_complete p))) ;;
  modify (set_b_ca_down (negb (s_charge_abort p))) ;;
  ret (event_cb, event_cc, event_ca).

(** Lines 148-174. *)
Definition handle_transitions (event_cb event_cc event_ca : bool)
  : M world unit :=
  m <- get monitoring ;;
  if m then
    if event_cb then
      print "end monitoring; new charging cycle begun." [] ;;
      estimate_capacity ;;
      modify (set_monitoring false)
    else if event_cc then
      print "ERROR: inconsistent charge complete signal" [] ;;
      modify (set_monitoring false)
    else if event_ca then
      print "ERROR: inconsistent charge abort signal" [] ;;
      modify (set_monitoring false)
    else ret tt
  else
    if event_cb then ret tt
    else if event_cc then
      modify (set_voltage []) ;;
      modify (set_monitoring true) ;;
      print "begin monitoring" []
    else if event_ca then ret tt
    else ret tt.

(** Lines 176-180. *)
Definition sampling (p : pins) : M world unit :=
  m <- get monitoring ;;
  h <- get half_sec ;;
  if m && (h =? 0)%Z then
    v_now <- get_volts p ;;
    modify (fun w => set_voltage (voltage w ++ [v_now]) w) ;;
    vs <- get voltage ;;
    minutes <- inject_Z (len vs) /! samples_per_minute ;;
    print "minutes %4.2f, voltage = %2.3f" [minutes; v_now]
  else ret tt.

(** Lines 129-146: the counter update and the release detectors. *)
Definition poll (p : pins) : M world (bool * bool * bool) :=
  advance_counter ;;
  detect_events p.

(** Lines 129-174: the part of one pass that precedes the sampling
    check. *)
Definition handle_events (p : pins) : M world unit :=
  ev <- poll p ;;
  let '(event_cb, event_cc, event_ca) := ev in
  handle_transitions event_cb event_cc event_ca.

(** One pass of the body of [while True] (lines 128-180); the sleep is not
    modelled. *)
Definition tick (p : pins) : M world unit :=
  handle_events p ;;
  sampling p.

(** The main loop over a finite prefix of pin readings.  An exception is
    not caught anywhere in the script, so the first one ends the run. *)
Fixpoint run (ps : list pins) : M world unit :=
  match ps with
  | [] => ret tt
  | p :: ps' => tick p ;; run ps'
  end.

End Age.

Import Age.

(** ** Vocabulary of the specification *)

Module Spec.

(** The arbitrated result of one tick. *)
Inductive BoundaryEvent : Type :=
| NoEvent
| Begin
| Complete
| Abort.

(** Event Arbiter: fixed priority Begin > Complete > Abort. *)
Definition arbitrate (begin complete abort : bool) : BoundaryEvent :=
  if begin then Begin
  else if complete then Complete
  else if abort then Abort
  else NoEvent.

(** The transition table of the monitoring state machine, one row per
    state and event. *)
Definition transition (e : BoundaryEvent) : M world unit :=
  m <- get monitoring ;;
  match m, e with
  | false, Begin => ret tt
  | false, Complete =>
      modify (set_voltage []) ;;
      modify (set_monitoring true) ;;
      print "begin monitoring" []
  | false, Abort => ret tt
  | false, NoEvent => ret tt
  | true, Begin =>
      print "end monitoring; new charging cycle begun." [] ;;
      estimate_capacity ;;
      modify (set_monitoring false)
  | true, Complete =>
      print "ERROR: inconsistent charge complete signal" [] ;;
      modify (set_monitoring false)
  | true, Abort =>
      print "ERROR: inconsistent charge abort signal" [] ;;
      modify (set_monitoring false)
  | true, NoEvent => ret tt
  end.

(** A signal is asserted when its raw level is low. *)
Definition asserted (level : bool) : bool := negb level.

(** Release edge: asserted on the previous tick, not asserted now. *)
Definition release (previous current : bool) : bool :=
  asserted previous && negb (asserted current).

(** The raw level a detector has last seen after the ticks [ps]; before
    the first tick there is none, which counts as not asserted. *)
Definition previous_level (signal : pins -> bool) (ps : list pins) : bool :=
  match rev ps with
  | [] => true
  | p :: _ => signal p
  end.

(** Capacity Estimator, steps 1 to 7 of its algorithm, as a function of the
    series alone. *)
Definition estimate (series : list Q) : locals :=
  let N := len series in
  let v_sum := sum series in
  let i_sum := v_sum / load_resistance in
  let i_avg := i_sum / inject_Z N in
  let charge_used := i_sum / samples_per_minute / minutes_per_hour in
  let v_start := hd 0 series in
  let v_end := last series 0 in
  let v_cutoff := -0.449 * i_avg + 3.323 in
  let ratio := (v_start - v_cutoff) / (v_start - v_end) in
  let total_capacity := ratio * charge_used in
  {| samples := N; v_sum := v_sum; i_sum := i_sum; i_avg := i_avg;
     energy_used := charge_used; v_monitor_start := v_start;
     v_monitor_end := v_end; v_cutoff := v_cutoff; ratio := ratio;
     energy_total := total_capacity |}.

(** The lines of a capacity report, in the order they are printed. *)
Definition report_lines (l : locals) : list line :=
  [ Fmt "capacity estimate after %4.2f minutes:"
        [inject_Z (samples l) / samples_per_minute];
    Fmt "average current = %4.2f mA" [i_avg l * milliamps_per_amp];
    Fmt "capacity used = %5.2f mAh" [energy_used l * milliamps_per_amp];
    Fmt "voltage monitor start = %2.2f volts" [v_monitor_start l];
    Fmt "voltage monitor end = %2.2f volts" [v_monitor_end l];
    Fmt "adjusted voltage cutoff = %2.2f volts" [v_cutoff l];
    Fmt "predicted total capacity = %5.2f mAh"
        [energy_total l * milliamps_per_amp] ].

(** A report is complete once its last line is out. *)
Definition closes_report (l : line) : bool :=
  String.eqb (fmt l) "predicted total capacity = %5.2f mAh".

Definition is_error_line (l : line) : bool :=
  String.prefix "ERROR:" (fmt l).

Definition report_count (out : list line) : nat :=
  List.length (filter closes_report out).

Definition error_count (out : list line) : nat :=
  List.length (filter is_error_line out).

(** Agreement to three significant figures, taken strictly: the relative
    error is at most 0.05 percent, which is never more than half a unit of
    the third significant digit of [ref]. *)
Definition sig3 (x ref : Q) : Prop :=
  Qabs (x - ref) <= (5 # 10000) * Qabs ref.

(** [x] rounds to the decimal [ref] whose last digit has weight [ulp]. *)
Definition rounds_to (x ref ulp : Q) : Prop :=
  ref - ulp / 2 <= x /\ x < ref + ulp / 2.

End Spec.

Import Spec.

(** ** Auxiliary definitions *)

(** The event honoured in a pass from state [w] with pins [p]. *)
Definition arbitrated (w : world) (p : pins) : BoundaryEvent :=
  arbitrate (b_cb_down w && s_charge_begin p)
            (b_cc_down w && s_charge_complete p)
            (b_ca_down w && s_charge_abort p).

(** The counter after [advance_counter]. *)
Definition next_half_sec (h : Z) : Z :=
  if (h + 1 =? 60)%Z then 0%Z else (h + 1)%Z.

(** The voltage computed by [get_volts] from a sensor value. *)
Definition volts_of (value : Z) : Q :=
  inject_Z value * 3.3 / 65536 / 0.684.

Definition end_monitoring_line : line :=
  Fmt "end monitoring; new charging cycle begun." [].

(** [m] relates every start state to the state it leaves, whatever its
    outcome. *)
Definition preserves (R : world -> world -> Prop) {A} (m : M world A) : Prop :=
  forall w, R w (snd (m w)).

(** The release detectors' memory. *)
Definition same_buttons (w w' : world) : Prop :=
  b_cb_down w' = b_cb_down w /\
  b_cc_down w' = b_cc_down w /\
  b_ca_down w' = b_ca_down w.

(** The tick counter. *)
Definition same_counter (w w' : world) : Prop := half_sec w' = half_sec w.

(** The sample series. *)
Definition same_series (w w' : world) : Prop := voltage w' = voltage w.

(** *** Pin readings and states used in the examples *)

Definition all_released : pins :=
  {| s_charge_begin := true; s_charge_complete := true;
     s_charge_abort := true; voltage_sense := Some 40000%Z |}.

Definition begin_pressed : pins :=
  {| s_charge_begin := false; s_charge_complete := true;
     s_charge_abort := true; voltage_sense := Some 40000%Z |}.

Definition complete_pressed : pins :=
  {| s_charge_begin := true; s_charge_complete := false;
     s_charge_abort := true; voltage_sense := Some 40000%Z |}.

(** No button pressed, and the read of the analog input raises. *)
Definition sensor_failing : pins :=
  {| s_charge_begin := true; s_charge_complete := true;
     s_charge_abort := true; voltage_sense := None |}.

(** Press and release "charge complete", wait [idle] passes, then press and
    release "charge begin".  Monitoring starts on the second pass; the
    counter wraps on the 60th and the 120th pass. *)
Definition discharge_cycle (idle : nat) : list pins :=
  [complete_pressed; all_released] ++ repeat all_released idle ++
  [begin_pressed; all_released].

(** Monitoring the given series, no button held. *)
Definition monitoring_world (series : list Q) : world :=
  {| b_cb_down := false; b_cc_down := false; b_ca_down := false;
     monitoring := true; voltage := series; half_sec := 5%Z;
     stdout := []; sensor_reads := 0%nat |}.

(** Monitoring the given series with "charge begin" held down, so that its
    release is seen on the next pass. *)
Definition begin_release_world (series : list Q) : world :=
  {| b_cb_down := true; b_cc_down := false; b_ca_down := false;
     monitoring := true; voltage := series; half_sec := 5%Z;
     stdout := []; sensor_reads := 0%nat |}.

(** Idle, "charge complete" held down, one pass before the counter wraps. *)
Definition complete_release_world : world :=
  {| b_cb_down := false; b_cc_down := true; b_ca_down := false;
     monitoring := false; voltage := [3.1; 3.0]; half_sec := 59%Z;
     stdout := []; sensor_reads := 0%nat |}.

(** Monitoring, one pass before the counter wraps. *)
Definition sampling_due_world : world :=
  {| b_cb_down := false; b_cc_down := false; b_ca_down := false;
     monitoring := true; voltage := [3.1]; half_sec := 59%Z;
     stdout := []; sensor_reads := 0%nat |}.

(** ** The low-voltage alarm: [src/battery_age/monitor.py]

    An independent script: it reads the same analog input every ten seconds,
    prints the voltage and drives a buzzer while the voltage is below 2.8.
    Its state is the duty cycle of the buzzer's PWM output, the printed
    text and a ghost count of sensor reads. *)

Module Monitor.

Record world : Type := {
  duty_cycle : Z;
  stdout : list line;
  sensor_reads : nat
}.

Definition set_duty_cycle (d : Z) (w : world) : world :=
  {| duty_cycle := d; stdout := stdout w; sensor_reads := sensor_reads w |}.

Definition set_stdout (o : list line) (w : world) : world :=
  {| duty_cycle := duty_cycle w; stdout := o;
     sensor_reads := sensor_reads w |}.

Definition set_sensor_reads (n : nat) (w : world) : world :=
  {| duty_cycle := duty_cycle w; stdout := stdout w; sensor_reads := n |}.

(** [print(f % xs)] *)
Definition print (f : string) (xs : list Q) : M world unit :=
  modify (fun w => set_stdout (stdout w ++ [Fmt f xs]) w).

(** [x < y] on numbers. *)
Definition lt (x y : Q) : bool := negb (Qle_bool y x).

(** Line 14: the buzzer is created with a duty cycle of zero. *)
Definition init : world :=
  {| duty_cycle := 0%Z; stdout := []; sensor_reads := 0%nat |}.

(** Lines 17-18. *)
Definition alert_on : M world unit := modify (set_duty_cycle 30000%Z).

(** Lines 20-21. *)
Definition alert_off : M world unit := modify (set_duty_cycle 0%Z).

(** [voltage_sense.value]: the 16-bit value of the analog input, or an
    exception when [sensor] is [None]. *)
Definition read_voltage_sense (sensor : option Z) : M world Z :=
  modify (fun w => set_sensor_reads (S (sensor_reads w)) w) ;;
  match sensor with
  | Some value => ret value
  | None => raise SensorFault
  end.

(** Lines 24-26. *)
Definition get_volts (sensor : option Z) : M world Q :=
  value <- read_voltage_sense sensor ;;
  ad_volt <- (inject_Z value * 3.3) /! 65536 ;;
  ad_volt /! 0.684.

(** Lines 30-32: one beep on reboot; the sleep is not modelled. *)
Definition startup : M world unit :=
  alert_on ;;
  alert_off.

(** Lines 35-42: one pass of the body of [while True]. *)
Definition pass (sensor : option Z) : M world unit :=
  v <- get_volts sensor ;;
  print "%f" [v] ;;
  if lt v 2.8 then alert_on else alert_off.

(** The loop over a finite prefix of sensor readings; an exception ends
    it. *)
Fixpoint loop (sensors : list (option Z)) : M world unit :=
  match sensors with
  | [] => ret tt
  | sensor :: sensors' => pass sensor ;; loop sensors'
  end.

(** The whole script on a finite prefix of sensor readings. *)
Definition main (sensors : list (option Z)) : M world unit :=
  startup ;;
  loop sensors.

End Monitor.

(** ** Further auxiliary definitions *)

(** No button is pressed. *)
Definition quiet (p : pins) : Prop :=
  s_charge_begin p = true /\ s_charge_complete p = true /\
  s_charge_abort p = true.

(** No detector remembers a pressed button. *)
Definition buttons_up (w : world) : Prop :=
  b_cb_down w = false /\ b_cc_down w = false /\ b_ca_down w = false.

(** The values a 16-bit converter can deliver. *)
Definition adc_range (value : Z) : Prop := (0 <= value < 65536)%Z.

(** The series is not empty and its first and last samples differ. *)
Definition estimable (series : list Q) : Prop :=
  exists v rest, series = v :: rest /\ ~ v == last rest v.

(** [w'] is [w] with further lines printed. *)
Definition prints_only (w w' : world) : Prop :=
  exists new, w' = set_stdout (stdout w ++ new) w.

(** The printed text of [w'] extends that of [w]. *)
Definition output_extends (w w' : world) : Prop :=
  exists new, stdout w' = stdout w ++ new.

(** The duty cycle the alarm gives the buzzer for a sensor value. *)
Definition alarm_level (value : Z) : Z :=
  if (value <=? 38034)%Z then 30000%Z else 0%Z.

(** The line the alarm prints for a sensor value. *)
Definition alarm_line (value : Z) : line := Fmt "%f" [volts_of value].

(** The mode after a pass that completes, by mode and arbitrated event. *)
Definition next_mode (m : bool) (e : BoundaryEvent) : bool :=
  match m, e with
  | false, Complete => true
  | true, NoEvent => true
  | _, _ => false
  end.

(** No button pressed, the analog input delivering [value]. *)
Definition reading (value : Z) : pins :=
  {| s_charge_begin := true; s_charge_complete := true;
     s_charge_abort := true; voltage_sense := Some value |}.

(** Idle, no button held, one pass before the counter wraps. *)
Definition idle_wrap_world : world :=
  {| b_cb_down := false; b_cc_down := false; b_ca_down := false;
     monitoring := false; voltage := [3.1]; half_sec := 59%Z;
     stdout := []; sensor_reads := 0%nat |}.

(** Fifty-eight passes with no button pressed, then one with "charge
    complete" pressed: the next pass is the 60th, on which the counter
    wraps. *)
Definition press_complete_before_wrap : list pins :=
  repeat all_released 58 ++ [complete_pressed].

(** ** Frame reasoning: what a block leaves untouched *)

Section Frame.

Variable R : world -> world -> Prop.
Hypothesis R_refl : forall w, R w w.
Hypothesis R_trans : forall w1 w2 w3, R w1 w2 -> R w2 w3 -> R w1 w3.

Lemma preserves_ret {A} (a : A) : preserves R (ret a).
Proof. intro w. apply R_refl. Qed.

Lemma preserves_raise {A} (e : exn) : preserves R (@raise world A e).
Proof. intro w. apply R_refl. Qed.

Lemma preserves_get {A} (f : world -> A) : preserves R (get f).
Proof. intro w. apply R_refl. Qed.

Lemma preserves_modify (f : world -> world) :
  (forall w, R w (f w)) -> preserves R (modify f).
Proof. intros H w. apply H. Qed.

Lemma preserves_bind {A B} (m : M world A) (k : A -> M world B) :
  preserves R m -> (forall a, preserves R (k a)) -> preserves R (bind m k).
Proof.
  intros Hm Hk w. unfold bind.
  specialize (Hm w). destruct (m w) as [[a|e] w1]; simpl in *.
  - eapply R_trans; [exact Hm | apply Hk].
  - exact Hm.
Qed.

Lemma preserves_truediv (x y : Q) : preserves R (truediv x y).
Proof.
  intro w. unfold truediv. destruct (Qeq_bool y 0); apply R_refl.
Qed.

Lemma preserves_getitem (l : list Q) (i : Z) : preserves R (getitem l i).
Proof.
  intro w. unfold getitem.
  destruct (_ <? 0)%Z; [apply R_refl|].
  destruct (nth_error _ _); apply R_refl.
Qed.

Lemma preserves_if {A} (b : bool) (m1 m2 : M world A) :
  preserves R m1 -> preserves R m2 -> preserves R (if b then m1 else m2).
Proof. destruct b; auto. Qed.

Hypothesis R_stdout : forall o w, R w (set_stdout o w).
Hypothesis R_monitoring : forall b w, R w (set_monitoring b w).
Hypothesis R_voltage : forall l w, R w (set_voltage l w).
Hypothesis R_sensor_reads : forall n w, R w (set_sensor_reads n w).

Lemma preserves_print f xs : preserves R (print f xs).
Proof. apply preserves_modify. intro w. apply R_stdout. Qed.

(** One syntax-directed step through a block. *)
Ltac frame_step :=
  lazymatch goal with
  | |- preserves _ (bind _ _) => apply preserves_bind; [|intro]
  | |- preserves _ (if _ then _ else _) => apply preserves_if
  | |- preserves _ (match ?o with Some _ => _ | None => _ end) => destruct o
  | |- preserves _ (ret _) => apply preserves_ret
  | |- preserves _ (raise _) => apply preserves_raise
  | |- preserves _ (get _) => apply preserves_get
  | |- preserves _ (truediv _ _) => apply preserves_truediv
  | |- preserves _ (getitem _ _) => apply preserves_getitem
  | |- preserves _ (print _ _) => apply preserves_print
  | |- preserves _ (modify _) => apply preserves_modify; intro; auto
  end.

Lemma preserves_estimate_capacity : preserves R estimate_capacity.
Proof. unfold estimate_capacity. repeat frame_step. Qed.

Lemma preserves_handle_transitions cb cc ca :
  preserves R (handle_transitions cb cc ca).
Proof.
  unfold handle_transitions.
  repeat first [apply preserves_estimate_capacity | frame_step].
Qed.

Lemma preserves_get_volts p : preserves R (get_volts p).
Proof. unfold get_volts, read_voltage_sense. repeat frame_step. Qed.

Lemma preserves_sampling p : preserves R (sampling p).
Proof.
  unfold sampling.
  repeat first [apply preserves_get_volts | frame_step].
Qed.

End Frame.

Ltac frame_side :=
  unfold same_buttons, same_counter, same_series;
  intros; simpl; try tauto; try congruence;
  repeat match goal with H : _ /\ _ |- _ => destruct H end;
  repeat split; congruence.

Lemma handle_transitions_buttons cb cc ca :
  preserves same_buttons (handle_transitions cb cc ca).
Proof. apply preserves_handle_transitions; frame_side. Qed.

Lemma sampling_buttons p : preserves same_buttons (sampling p).
Proof. apply preserves_sampling; frame_side. Qed.

Lemma handle_transitions_counter cb cc ca :
  preserves same_counter (handle_transitions cb cc ca).
Proof. apply preserves_handle_transitions; frame_side. Qed.

Lemma sampling_counter p : preserves same_counter (sampling p).
Proof. apply preserves_sampling; frame_side. Qed.

Lemma estimate_capacity_series : preserves same_series estimate_capacity.
Proof. apply preserves_estimate_capacity; frame_side. Qed.

(** ** Edge detectors *)

(** [poll] never faults; its flags and the state it leaves. *)
Lemma poll_eq (p : pins) (w : world) :
  poll p w =
  (Ok (b_cb_down w && s_charge_begin p,
       b_cc_down w && s_charge_complete p,
       b_ca_down w && s_charge_abort p),
   {| b_cb_down := negb (s_charge_begin p);
      b_cc_down := negb (s_charge_complete p);
      b_ca_down := negb (s_charge_abort p);
      monitoring := monitoring w; voltage := voltage w;
      half_sec := next_half_sec (half_sec w); stdout := stdout w;
      sensor_reads := sensor_reads w |}).
Proof.
  destruct w as [cb cc ca m vs h out n].
  unfold poll, advance_counter, detect_events, next_half_sec, bind, get,
    modify, ret; simpl.
  destruct (h + 1 =? 60)%Z; simpl;
    destruct (cb && s_charge_begin p), (cc && s_charge_complete p),
      (ca && s_charge_abort p); reflexivity.
Qed.

Lemma tick_unfold (p : pins) (w : world) :
  tick p w =
  match handle_events p w with
  | (Ok _, w1) => sampling p w1
  | (Raise e, w1) => (Raise e, w1)
  end.
Proof. reflexivity. Qed.

Lemma handle_events_unfold (p : pins) (w : world) :
  handle_events p w =
  handle_transitions (b_cb_down w && s_charge_begin p)
                     (b_cc_down w && s_charge_complete p)
                     (b_ca_down w && s_charge_abort p)
                     (snd (poll p w)).
Proof. unfold handle_events, bind. rewrite poll_eq. reflexivity. Qed.

(** After a pass of the loop each detector remembers the level it has just
    read, whether or not the pass ended in an exception. *)
Lemma tick_buttons (p : pins) (w : world) :
  let w' := snd (tick p w) in
  b_cb_down w' = negb (s_charge_begin p) /\
  b_cc_down w' = negb (s_charge_complete p) /\
  b_ca_down w' = negb (s_charge_abort p).
Proof.
  cbv zeta. rewrite tick_unfold, handle_events_unfold.
  pose proof (handle_transitions_buttons
                (b_cb_down w && s_charge_begin p)
                (b_cc_down w && s_charge_complete p)
                (b_ca_down w && s_charge_abort p) (snd (poll p w))) as Hh.
  destruct (handle_transitions _ _ _ _) as [[u|e] w1]; simpl in Hh.
  - pose proof (sampling_buttons p w1) as Hs.
    unfold same_buttons in *. rewrite poll_eq in Hh. simpl in Hh.
    destruct Hs as (Hs1 & Hs2 & Hs3). rewrite Hs1, Hs2, Hs3. exact Hh.
  - unfold same_buttons in *. rewrite poll_eq in Hh. simpl in *.
    exact Hh.
Qed.

Lemma run_app (ps qs : list pins) (w : world) :
  run (ps ++ qs) w =
  match run ps w with
  | (Ok _, w1) => run qs w1
  | (Raise e, w1) => (Raise e, w1)
  end.
Proof.
  revert w. induction ps as [|p ps IH]; intro w; simpl.
  - reflexivity.
  - unfold bind. destruct (tick p w) as [[u|e] w1]; [apply IH|reflexivity].
Qed.

Lemma previous_level_snoc (signal : pins -> bool) ps p :
  previous_level signal (ps ++ [p]) = signal p.
Proof. unfold previous_level. rewrite rev_unit. reflexivity. Qed.

(** Along every run from the initial state, a detector's memory says
    whether the level it last read was asserted. *)
Lemma run_buttons (ps : list pins) (w : world) :
  run ps init = (Ok tt, w) ->
  b_cb_down w = asserted (previous_level s_charge_begin ps) /\
  b_cc_down w = asserted (previous_level s_charge_complete ps) /\
  b_ca_down w = asserted (previous_level s_charge_abort ps).
Proof.
  destruct ps as [|p ps] using rev_ind.
  - simpl. unfold ret. intro H. inversion H. subst. simpl. auto.
  - clear IHps. rewrite run_app. destruct (run ps init) as [[u|e] w1].
    + simpl. unfold bind, ret. intro H.
      pose proof (tick_buttons p w1) as Hb. cbv zeta in Hb.
      destruct (tick p w1) as [[u'|e'] w2]; [|discriminate].
      inversion H. subst. simpl in Hb.
      rewrite !previous_level_snoc. exact Hb.
    + discriminate.
Qed.

Lemma release_true_iff (previous current : bool) :
  release previous current = true <-> previous = false /\ current = true.
Proof.
  unfold release, asserted.
  destruct previous, current; simpl; split; intro H;
    try discriminate; try (destruct H; discriminate); auto.
Qed.

(** C5. At every pass of the main loop that is reached from the initial
    state, each of the three detectors reports exactly a release edge of
    its signal: its flag is true when the level read on the previous pass was
    asserted (low) and the level read now is not, and false otherwise; on
    the first pass, where there is no previous level, it is false. *)
Theorem edge_detector_release (ps : list pins) (p : pins) (w : world) :
  run ps init = (Ok tt, w) ->
  fst (poll p w) =
  Ok (release (previous_level s_charge_begin ps) (s_charge_begin p),
      release (previous_level s_charge_complete ps) (s_charge_complete p),
      release (previous_level s_charge_abort ps) (s_charge_abort p)).
Proof.
  intro Hrun. apply run_buttons in Hrun.
  destruct Hrun as (Hb & Hc & Ha).
  rewrite poll_eq. simpl. rewrite Hb, Hc, Ha.
  unfold release, asserted. rewrite !negb_involutive. reflexivity.
Qed.

Lemma edge_detector_release_witness :
  run [begin_pressed] init = (Ok tt, snd (run [begin_pressed] init)) /\
  fst (poll all_released (snd (run [begin_pressed] init))) =
  Ok (true, false, false).
Proof.
  split.
  - reflexivity.
  - apply (edge_detector_release [begin_pressed] all_released
             (snd (run [begin_pressed] init))).
    reflexivity.
Defined.

(** The example of the specification: levels asserted, asserted, not
    asserted, not asserted give the flags false, false, true, false. *)
Example edge_detector_example :
  let ps := [begin_pressed; begin_pressed; all_released; all_released] in
  map (fun k => fst (poll (nth k ps all_released)
                          (snd (run (firstn k ps) init))))
      [0; 1; 2; 3]%nat =
  [Ok (false, false, false); Ok (false, false, false);
   Ok (true, false, false); Ok (false, false, false)].
Proof. reflexivity. Qed.

(** ** Event arbitration *)

(** The if/elif chains of the state-transition block are the transition
    table applied to the arbitrated event. *)
Lemma handle_transitions_arbitrate cb cc ca w :
  handle_transitions cb cc ca w = transition (arbitrate cb cc ca) w.
Proof.
  unfold handle_transitions, transition, bind, get.
  destruct (monitoring w), cb, cc, ca; reflexivity.
Qed.

(** C6. The state-transition block honours at most one boundary event per
    tick: whatever combination of detector flags it is given, it behaves as
    the transition table applied to the single event chosen with priority
    Begin > Complete > Abort.  Begin wins over Complete, Complete wins over
    Abort, and no flag gives no event. *)
Theorem arbitration_priority :
  (forall (event_cb event_cc event_ca : bool) (w : world),
      handle_transitions event_cb event_cc event_ca w =
      transition (arbitrate event_cb event_cc event_ca) w) /\
  (forall event_cc event_ca, arbitrate true event_cc event_ca = Begin) /\
  (forall event_ca, arbitrate false true event_ca = Complete) /\
  arbitrate false false true = Abort /\
  arbitrate false false false = NoEvent.
Proof.
  split; [exact handle_transitions_arbitrate|].
  repeat split.
Qed.

(** ** Capacity estimator *)

Lemma truediv_ok {S : Type} (x y : Q) (s : S) :
  Qeq_bool y 0 = false -> truediv x y s = (Ok (x / y), s).
Proof. intro H. unfold truediv. rewrite H. reflexivity. Qed.

Lemma truediv_fault {S : Type} (x y : Q) (s : S) :
  y == 0 -> truediv x y s = (Raise ZeroDivisionError, s).
Proof.
  intro H. unfold truediv. apply Qeq_bool_iff in H. rewrite H. reflexivity.
Qed.

Lemma Qeq_bool_false (y : Q) : ~ y == 0 -> Qeq_bool y 0 = false.
Proof.
  intro H. destruct (Qeq_bool y 0) eqn:E; [|reflexivity].
  apply Qeq_bool_iff in E. contradiction.
Qed.

Lemma len_cons_nonzero {A} (x : A) (l : list A) :
  Qeq_bool (inject_Z (len (x :: l))) 0 = false.
Proof.
  apply Qeq_bool_false. unfold len, Qeq. simpl. lia.
Qed.

Lemma last_cons_default {A} (y : A) (l : list A) (d d' : A) :
  last (y :: l) d = last (y :: l) d'.
Proof.
  revert y. induction l as [|z l IH]; intro y; [reflexivity|].
  change (last (z :: l) d = last (z :: l) d'). apply IH.
Qed.

Lemma last_cons {A} (x : A) (l : list A) (d : A) :
  last (x :: l) d = last l x.
Proof.
  destruct l as [|y l]; [reflexivity|].
  change (last (y :: l) d = last (y :: l) x). apply last_cons_default.
Qed.

Lemma nth_error_last {A} (x : A) (l : list A) :
  nth_error (x :: l) (List.length l) = Some (last l x).
Proof.
  revert x. induction l as [|y l IH]; intro x; [reflexivity|].
  change (nth_error (y :: l) (List.length l) = Some (last (y :: l) x)).
  rewrite IH, last_cons. reflexivity.
Qed.

Lemma getitem_first {S : Type} (v : Q) (rest : list Q) (s : S) :
  getitem (v :: rest) 0 s = (Ok v, s).
Proof. reflexivity. Qed.

Lemma getitem_last {S : Type} (v : Q) (rest : list Q) (s : S) :
  getitem (v :: rest) (-1) s = (Ok (last rest v), s).
Proof.
  unfold getitem, len.
  change (-1 <? 0)%Z with true. cbv iota.
  replace (-1 + Z.of_nat (List.length (v :: rest)))%Z
    with (Z.of_nat (List.length rest)) by (simpl List.length; lia).
  destruct (Z.ltb_spec (Z.of_nat (List.length rest)) 0); [lia|].
  rewrite Nat2Z.id, nth_error_last. reflexivity.
Qed.

(** Running a block statement by statement. *)

Lemma bind_get {A B} (f : world -> A) (k : A -> M world B) (w : world) :
  bind (get f) k w = k (f w) w.
Proof. reflexivity. Qed.

Lemma bind_modify {B} (f : world -> world) (k : unit -> M world B) w :
  bind (modify f) k w = k tt (f w).
Proof. reflexivity. Qed.

Lemma bind_print {B} (f : string) (xs : list Q) (k : unit -> M world B) w :
  bind (print f xs) k w = k tt (set_stdout (stdout w ++ [Fmt f xs]) w).
Proof. reflexivity. Qed.

Lemma bind_ret {A B} (a : A) (k : A -> M world B) (w : world) :
  bind (ret a) k w = k a w.
Proof. reflexivity. Qed.

Lemma bind_truediv_ok {B} (x y : Q) (k : Q -> M world B) (w : world) :
  Qeq_bool y 0 = false -> bind (truediv x y) k w = k (x / y) w.
Proof. intro H. unfold bind. rewrite truediv_ok by exact H. reflexivity. Qed.

Lemma bind_truediv_fault {B} (x y : Q) (k : Q -> M world B) (w : world) :
  y == 0 -> bind (truediv x y) k w = (Raise ZeroDivisionError, w).
Proof. intro H. unfold bind. rewrite truediv_fault by exact H. reflexivity. Qed.

Lemma bind_getitem_first {B} v rest (k : Q -> M world B) (w : world) :
  bind (getitem (v :: rest) 0) k w = k v w.
Proof. reflexivity. Qed.

Lemma bind_getitem_last {B} v rest (k : Q -> M world B) (w : world) :
  bind (getitem (v :: rest) (-1)) k w = k (last rest v) w.
Proof. unfold bind. rewrite getitem_last. reflexivity. Qed.

Lemma bind_assoc {A B C} (m : M world A) (k : A -> M world B)
      (k' : B -> M world C) (w : world) :
  bind (bind m k) k' w = bind m (fun a => bind (k a) k') w.
Proof. unfold bind. destruct (m w) as [[a|e] w1]; reflexivity. Qed.

Ltac fields :=
  cbv beta iota delta
      [b_cb_down b_cc_down b_ca_down monitoring voltage half_sec stdout
       sensor_reads set_b_cb_down set_b_cc_down set_b_ca_down set_monitoring
       set_voltage set_half_sec set_stdout set_sensor_reads].

Ltac nonzero :=
  first [ reflexivity
        | apply len_cons_nonzero
        | apply Qeq_bool_false; assumption ].

Ltac exec_step :=
  first [ rewrite bind_get
        | rewrite bind_print
        | rewrite bind_modify
        | rewrite bind_ret
        | rewrite bind_getitem_first
        | rewrite bind_getitem_last
        | rewrite bind_truediv_ok by nonzero ];
  fields.

(** The estimator on a series whose first and last samples differ: it
    returns, having printed one complete report. *)
Lemma estimate_capacity_ok (w : world) (v : Q) (rest : list Q) :
  voltage w = v :: rest ->
  ~ v == last rest v ->
  estimate_capacity w =
  (Ok (estimate (v :: rest)),
   set_stdout (stdout w ++ report_lines (estimate (v :: rest))) w).
Proof.
  intros Hv Hne.
  assert (Hd : ~ v - last rest v == 0).
  { intro H. apply Hne. lra. }
  destruct w as [cb cc ca m vs h out n]. simpl in Hv. subst vs.
  unfold estimate_capacity.
  repeat exec_step.
  unfold ret, estimate, report_lines, adjusted_cutoff.
  cbv beta iota zeta delta
      [samples v_sum i_sum i_avg energy_used v_monitor_start v_monitor_end
       v_cutoff ratio energy_total hd].
  rewrite (last_cons v rest 0).
  rewrite <- !app_assoc. reflexivity.
Qed.

(** The estimator on a series whose first and last samples are equal: the
    division of line 123 faults after six lines of the report are out. *)
Lemma estimate_capacity_flat (w : world) (v : Q) (rest : list Q) :
  voltage w = v :: rest ->
  v == last rest v ->
  estimate_capacity w =
  (Raise ZeroDivisionError,
   set_stdout (stdout w ++ firstn 6 (report_lines (estimate (v :: rest)))) w).
Proof.
  intros Hv Heq.
  assert (Hd : v - last rest v == 0) by lra.
  destruct w as [cb cc ca m vs h out n]. simpl in Hv. subst vs.
  unfold estimate_capacity.
  repeat exec_step.
  rewrite bind_truediv_fault by exact Hd.
  unfold estimate, report_lines, adjusted_cutoff.
  cbv beta iota zeta delta
      [samples v_sum i_sum i_avg energy_used v_monitor_start v_monitor_end
       v_cutoff ratio energy_total hd firstn].
  rewrite (last_cons v rest 0).
  rewrite <- !app_assoc. reflexivity.
Qed.

(** The estimator on an empty series: the division of line 111 faults after
    the first line of the report is out. *)
Lemma estimate_capacity_empty (w : world) :
  voltage w = [] ->
  estimate_capacity w =
  (Raise ZeroDivisionError,
   set_stdout
     (stdout w ++
      [Fmt "capacity estimate after %4.2f minutes:"
           [0 / samples_per_minute]]) w).
Proof.
  intro Hv.
  destruct w as [cb cc ca m vs h out n]. simpl in Hv. subst vs.
  unfold estimate_capacity.
  repeat exec_step.
  rewrite bind_truediv_fault by reflexivity.
  reflexivity.
Qed.

(** A series of one sample is flat. *)
Lemma estimate_capacity_single (w : world) (v : Q) :
  voltage w = [v] ->
  estimate_capacity w =
  (Raise ZeroDivisionError,
   set_stdout (stdout w ++ firstn 6 (report_lines (estimate [v]))) w).
Proof.
  intro Hv. apply estimate_capacity_flat; [exact Hv|]. simpl. reflexivity.
Qed.

(** The estimator returns only on a non-empty series whose first and last
    samples differ; a complete report is therefore never printed from an
    empty series. *)
Lemma estimate_capacity_returns (w : world) (l : locals) :
  fst (estimate_capacity w) = Ok l ->
  exists v rest, voltage w = v :: rest /\ ~ v == last rest v.
Proof.
  intro H. destruct (voltage w) as [|v rest] eqn:Hv.
  - rewrite (estimate_capacity_empty w Hv) in H. discriminate H.
  - exists v, rest. split; [reflexivity|].
    intro Heq. rewrite (estimate_capacity_flat w v rest Hv Heq) in H.
    discriminate H.
Qed.

Ltac q_decide :=
  lazymatch goal with
  | |- _ == _ => apply Qeq_bool_iff; vm_compute; reflexivity
  | |- _ <= _ => apply Qle_bool_iff; vm_compute; reflexivity
  | |- _ < _ => apply Qlt_alt; vm_compute; reflexivity
  | |- sig3 _ _ => unfold sig3; apply Qle_bool_iff; vm_compute; reflexivity
  | |- rounds_to _ _ _ =>
      unfold rounds_to; split;
      [ apply Qle_bool_iff; vm_compute; reflexivity
      | apply Qlt_alt; vm_compute; reflexivity ]
  end.

(** C2. With the script's constants (load resistance 15, two samples per
    minute) the estimator run on the series 3.3, 3.0 returns with
    v_sum = 6.3, i_sum = 0.42, i_avg = 0.21, charge used 0.0035 Ah, cutoff
    voltage -0.449 * i_avg + 3.323 = 3.2287 to four decimals, ratio 0.2376 to
    four decimals and total capacity 0.000832 Ah to six decimals; each quoted
    figure is met to three significant figures. *)
Theorem numeric_round_trip (w : world) :
  voltage w = [3.3; 3.0] ->
  exists (l : locals) (w' : world),
    estimate_capacity w = (Ok l, w') /\
    load_resistance == 15 /\ samples_per_minute == 2 /\
    v_sum l == 6.3 /\ i_sum l == 0.42 /\ i_avg l == 0.21 /\
    energy_used l == 0.0035 /\
    v_cutoff l == -0.449 * i_avg l + 3.323 /\
    rounds_to (v_cutoff l) 3.2287 0.0001 /\
    rounds_to (ratio l) 0.2376 0.0001 /\
    rounds_to (energy_total l) 0.000832 0.000001 /\
    sig3 (energy_used l) 0.0035 /\ sig3 (v_cutoff l) 3.2287 /\
    sig3 (ratio l) 0.2376 /\ sig3 (energy_total l) 0.000832.
Proof.
  intro Hv.
  exists (estimate [3.3; 3.0]).
  eexists. split.
  - apply estimate_capacity_ok; [exact Hv|].
    simpl. intro H. apply Qeq_bool_iff in H. discriminate H.
  - repeat split; q_decide.
Qed.

Lemma numeric_round_trip_witness :
  voltage (monitoring_world [3.3; 3.0]) = [3.3; 3.0] /\
  exists (l : locals) (w' : world),
    estimate_capacity (monitoring_world [3.3; 3.0]) = (Ok l, w') /\
    load_resistance == 15 /\ samples_per_minute == 2 /\
    v_sum l == 6.3 /\ i_sum l == 0.42 /\ i_avg l == 0.21 /\
    energy_used l == 0.0035 /\
    v_cutoff l == -0.449 * i_avg l + 3.323 /\
    rounds_to (v_cutoff l) 3.2287 0.0001 /\
    rounds_to (ratio l) 0.2376 0.0001 /\
    rounds_to (energy_total l) 0.000832 0.000001 /\
    sig3 (energy_used l) 0.0035 /\ sig3 (v_cutoff l) 3.2287 /\
    sig3 (ratio l) 0.2376 /\ sig3 (energy_total l) 0.000832.
Proof.
  split.
  - reflexivity.
  - apply (numeric_round_trip (monitoring_world [3.3; 3.0])). reflexivity.
Defined.

(** ** Monitoring state machine *)

Lemma bind_eq_ok {A B} (m : M world A) (k : A -> M world B) w a w1 :
  m w = (Ok a, w1) -> bind m k w = k a w1.
Proof. intro H. unfold bind. rewrite H. reflexivity. Qed.

Lemma bind_eq_raise {A B} (m : M world A) (k : A -> M world B) w e w1 :
  m w = (Raise e, w1) -> bind m k w = (Raise e, w1).
Proof. intro H. unfold bind. rewrite H. reflexivity. Qed.

(** Monitoring, Begin, first and last samples different. *)
Lemma transition_begin_ok (w : world) (v : Q) (rest : list Q) :
  monitoring w = true ->
  voltage w = v :: rest ->
  ~ v == last rest v ->
  transition Begin w =
  (Ok tt,
   set_monitoring false
     (set_stdout
        (stdout w ++ end_monitoring_line :: report_lines (estimate (v :: rest)))
        w)).
Proof.
  intros Hm Hv Hne. unfold transition.
  rewrite bind_get, Hm, bind_print.
  erewrite bind_eq_ok by (apply estimate_capacity_ok; [exact Hv|exact Hne]).
  destruct w as [cb cc ca m vs h out n].
  unfold modify. fields. rewrite <- app_assoc. reflexivity.
Qed.

(** Monitoring, Begin, first and last samples equal. *)
Lemma transition_begin_flat (w : world) (v : Q) (rest : list Q) :
  monitoring w = true ->
  voltage w = v :: rest ->
  v == last rest v ->
  transition Begin w =
  (Raise ZeroDivisionError,
   set_stdout
     (stdout w ++
      end_monitoring_line :: firstn 6 (report_lines (estimate (v :: rest))))
     w).
Proof.
  intros Hm Hv Heq. unfold transition.
  rewrite bind_get, Hm, bind_print.
  erewrite bind_eq_raise by (apply estimate_capacity_flat; [exact Hv|exact Heq]).
  destruct w as [cb cc ca m vs h out n].
  fields. rewrite <- app_assoc. reflexivity.
Qed.

(** Monitoring, Begin, no sample. *)
Lemma transition_begin_empty (w : world) :
  monitoring w = true ->
  voltage w = [] ->
  transition Begin w =
  (Raise ZeroDivisionError,
   set_stdout
     (stdout w ++
      [end_monitoring_line;
       Fmt "capacity estimate after %4.2f minutes:" [0 / samples_per_minute]])
     w).
Proof.
  intros Hm Hv. unfold transition.
  rewrite bind_get, Hm, bind_print.
  erewrite bind_eq_raise by (apply estimate_capacity_empty; exact Hv).
  destruct w as [cb cc ca m vs h out n].
  fields. rewrite <- app_assoc. reflexivity.
Qed.

Lemma report_count_report_lines (l : locals) :
  report_count (report_lines l) = 1%nat.
Proof. reflexivity. Qed.

Lemma error_count_report_lines (l : locals) :
  error_count (report_lines l) = 0%nat.
Proof. reflexivity. Qed.

(** C1, amended. For the state-transition block of one tick: an arbitrated
    Complete in Idle clears the sample series and moves to Monitoring; an
    arbitrated Begin in Monitoring with a non-empty series whose first and
    last samples differ prints exactly one capacity report, leaves the
    series as it is and moves to Idle; an arbitrated Abort in Monitoring
    prints no report and exactly one error line, and moves to Idle. *)
Theorem lifecycle_transitions :
  (forall cb cc ca w,
      monitoring w = false ->
      arbitrate cb cc ca = Complete ->
      exists w',
        handle_transitions cb cc ca w = (Ok tt, w') /\
        voltage w' = [] /\ monitoring w' = true /\
        stdout w' = stdout w ++ [Fmt "begin monitoring" []]) /\
  (forall cb cc ca w v rest,
      monitoring w = true ->
      arbitrate cb cc ca = Begin ->
      voltage w = v :: rest ->
      ~ v == last rest v ->
      exists w' new,
        handle_transitions cb cc ca w = (Ok tt, w') /\
        monitoring w' = false /\ voltage w' = voltage w /\
        stdout w' = stdout w ++ new /\
        new = end_monitoring_line :: report_lines (estimate (v :: rest)) /\
        report_count new = 1%nat /\ error_count new = 0%nat) /\
  (forall cb cc ca w,
      monitoring w = true ->
      arbitrate cb cc ca = Abort ->
      exists w' new,
        handle_transitions cb cc ca w = (Ok tt, w') /\
        monitoring w' = false /\ voltage w' = voltage w /\
        stdout w' = stdout w ++ new /\
        new = [Fmt "ERROR: inconsistent charge abort signal" []] /\
        report_count new = 0%nat /\ error_count new = 1%nat).
Proof.
  split; [|split].
  - intros cb cc ca w Hm He.
    rewrite handle_transitions_arbitrate, He.
    eexists. split.
    + unfold transition. rewrite bind_get, Hm. reflexivity.
    + destruct w; repeat split.
  - intros cb cc ca w v rest Hm He Hv Hne.
    rewrite handle_transitions_arbitrate, He.
    rewrite (transition_begin_ok w v rest Hm Hv Hne).
    do 2 eexists. split; [reflexivity|].
    destruct w; repeat split.
  - intros cb cc ca w Hm He.
    rewrite handle_transitions_arbitrate, He.
    do 2 eexists. split.
    + unfold transition. rewrite bind_get, Hm. reflexivity.
    + destruct w; repeat split.
Qed.

Lemma lifecycle_transitions_witness :
  (monitoring init = false /\ arbitrate false true true = Complete /\
   exists w',
     handle_transitions false true true init = (Ok tt, w') /\
     voltage w' = [] /\ monitoring w' = true /\
     stdout w' = stdout init ++ [Fmt "begin monitoring" []]) /\
  (monitoring (monitoring_world [3.3; 3.0]) = true /\
   arbitrate true true false = Begin /\
   voltage (monitoring_world [3.3; 3.0]) = [3.3; 3.0] /\
   ~ 3.3 == last [3.0] 3.3 /\
   exists w' new,
     handle_transitions true true false (monitoring_world [3.3; 3.0]) =
     (Ok tt, w') /\
     monitoring w' = false /\
     voltage w' = voltage (monitoring_world [3.3; 3.0]) /\
     stdout w' = stdout (monitoring_world [3.3; 3.0]) ++ new /\
     new = end_monitoring_line :: report_lines (estimate [3.3; 3.0]) /\
     report_count new = 1%nat /\ error_count new = 0%nat) /\
  (monitoring (monitoring_world [3.3; 3.0]) = true /\
   arbitrate false false true = Abort /\
   exists w' new,
     handle_transitions false false true (monitoring_world [3.3; 3.0]) =
     (Ok tt, w') /\
     monitoring w' = false /\
     voltage w' = voltage (monitoring_world [3.3; 3.0]) /\
     stdout w' = stdout (monitoring_world [3.3; 3.0]) ++ new /\
     new = [Fmt "ERROR: inconsistent charge abort signal" []] /\
     report_count new = 0%nat /\ error_count new = 1%nat).
Proof.
  assert (Hne : ~ 3.3 == last [3.0] 3.3).
  { simpl. intro H. apply Qeq_bool_iff in H. discriminate H. }
  split; [|split].
  - split; [reflexivity|]. split; [reflexivity|].
    apply (proj1 lifecycle_transitions false true true init); reflexivity.
  - split; [reflexivity|]. split; [reflexivity|]. split; [reflexivity|].
    split; [exact Hne|].
    apply (proj1 (proj2 lifecycle_transitions) true true false
                 (monitoring_world [3.3; 3.0]) 3.3 [3.0]);
      [reflexivity | reflexivity | reflexivity | exact Hne].
  - split; [reflexivity|]. split; [reflexivity|].
    apply (proj2 (proj2 lifecycle_transitions) false false true
                 (monitoring_world [3.3; 3.0])); reflexivity.
Defined.

(** C1 as stated fails: in Monitoring with the non-empty series 3.0, an
    arbitrated Begin ends in [ZeroDivisionError]; no report is completed and
    the machine is still in Monitoring. *)
Lemma lifecycle_begin_counterexample :
  let w := monitoring_world [3.0] in
  monitoring w = true /\ voltage w <> [] /\
  arbitrate true false false = Begin /\
  fst (handle_transitions true false false w) = Raise ZeroDivisionError /\
  monitoring (snd (handle_transitions true false false w)) = true /\
  report_count (stdout (snd (handle_transitions true false false w))) = 0%nat.
Proof.
  cbv zeta. repeat split; try reflexivity. discriminate.
Qed.

(** ** Runs from the initial state *)

(** C3, the behaviour of the script on a flat series.  With the series
    3.0, 3.0 the pass that sees Begin ends in [ZeroDivisionError] raised by
    the ratio of line 123: six lines of the report are out, none of them
    reports an indeterminate ratio, and [monitoring] is still set.  The same
    happens in a run from the initial state in which two samples of a
    constant sensor reading are taken. *)
Theorem flat_series_faults :
  (let r := tick all_released (begin_release_world [3.0; 3.0]) in
   fst r = Raise ZeroDivisionError /\
   monitoring (snd r) = true /\
   map fmt (stdout (snd r)) =
   [ "end monitoring; new charging cycle begun.";
     "capacity estimate after %4.2f minutes:";
     "average current = %4.2f mA";
     "capacity used = %5.2f mAh";
     "voltage monitor start = %2.2f volts";
     "voltage monitor end = %2.2f volts";
     "adjusted voltage cutoff = %2.2f volts" ]%string) /\
  (let r := run (discharge_cycle 118) init in
   fst r = Raise ZeroDivisionError /\
   monitoring (snd r) = true /\
   List.length (voltage (snd r)) = 2%nat /\
   report_count (stdout (snd r)) = 0%nat).
Proof.
  split; cbv zeta; repeat split; vm_compute; reflexivity.
Qed.

(** C4, the behaviour of the script on an empty series.  When Begin is seen
    while monitoring and no sample has been taken, the estimator is entered
    all the same and the division of line 111 raises [ZeroDivisionError]:
    only the first line of a report is out, there is no notice, and
    [monitoring] is still set.  A run from the initial state reaches this
    when "charge begin" follows "charge complete" before the counter
    wraps. *)
Theorem empty_series_faults :
  (let r := tick all_released (begin_release_world []) in
   fst r = Raise ZeroDivisionError /\
   monitoring (snd r) = true /\
   map fmt (stdout (snd r)) =
   [ "end monitoring; new charging cycle begun.";
     "capacity estimate after %4.2f minutes:" ]%string) /\
  (let r := run (discharge_cycle 0) init in
   fst r = Raise ZeroDivisionError /\
   monitoring (snd r) = true /\
   voltage (snd r) = [] /\
   report_count (stdout (snd r)) = 0%nat).
Proof.
  split; cbv zeta; repeat split; vm_compute; reflexivity.
Qed.

(** C10. A series of exactly one sample is its own first and last element,
    so the denominator of the ratio is zero whatever the sample is: the
    estimator faults in the division of line 123, after six lines of the
    report, and the pass that sees Begin at the end of such a monitoring
    cycle ends in [ZeroDivisionError] with [monitoring] still set. *)
Theorem single_sample_degenerate (v : Q) :
  getitem [v] 0 tt = (Ok v, tt) /\
  getitem [v] (-1) tt = (Ok v, tt) /\
  v_monitor_start (estimate [v]) - v_monitor_end (estimate [v]) == 0 /\
  (forall w,
      voltage w = [v] ->
      estimate_capacity w =
      (Raise ZeroDivisionError,
       set_stdout (stdout w ++ firstn 6 (report_lines (estimate [v]))) w)) /\
  (forall cb cc ca w,
      monitoring w = true ->
      voltage w = [v] ->
      arbitrate cb cc ca = Begin ->
      fst (handle_transitions cb cc ca w) = Raise ZeroDivisionError /\
      monitoring (snd (handle_transitions cb cc ca w)) = true).
Proof.
  split; [reflexivity|]. split; [reflexivity|]. split.
  - unfold estimate. simpl. lra.
  - split.
    + intros w Hv. apply estimate_capacity_single. exact Hv.
    + intros cb cc ca w Hm Hv He.
      rewrite handle_transitions_arbitrate, He.
      rewrite (transition_begin_flat w v [] Hm Hv) by (simpl; reflexivity).
      destruct w. simpl in *. auto.
Qed.

Lemma single_sample_degenerate_witness :
  voltage (begin_release_world [3.0]) = [3.0] /\
  monitoring (begin_release_world [3.0]) = true /\
  arbitrate true false false = Begin /\
  estimate_capacity (begin_release_world [3.0]) =
  (Raise ZeroDivisionError,
   set_stdout (stdout (begin_release_world [3.0]) ++
               firstn 6 (report_lines (estimate [3.0])))
              (begin_release_world [3.0])) /\
  fst (handle_transitions true false false (begin_release_world [3.0])) =
  Raise ZeroDivisionError /\
  monitoring
    (snd (handle_transitions true false false (begin_release_world [3.0]))) =
  true.
Proof.
  split; [reflexivity|]. split; [reflexivity|]. split; [reflexivity|].
  destruct (single_sample_degenerate 3.0) as (_ & _ & _ & He & Ht).
  split.
  - apply He. reflexivity.
  - apply Ht; reflexivity.
Defined.

(** A monitoring cycle in which exactly one sample is taken, run from the
    initial state. *)
Example single_sample_cycle :
  let r := run (discharge_cycle 58) init in
  fst r = Raise ZeroDivisionError /\
  monitoring (snd r) = true /\
  List.length (voltage (snd r)) = 1%nat.
Proof. cbv zeta. repeat split; vm_compute; reflexivity. Qed.

(** ** Sampler *)

Lemma sampling_idle (p : pins) (w : world) :
  monitoring w = false -> sampling p w = (Ok tt, w).
Proof.
  intro Hm. unfold sampling. rewrite !bind_get, Hm. reflexivity.
Qed.

Lemma sampling_off_boundary (p : pins) (w : world) :
  half_sec w <> 0%Z -> sampling p w = (Ok tt, w).
Proof.
  intro Hh. unfold sampling. rewrite !bind_get.
  apply Z.eqb_neq in Hh. rewrite Hh, andb_false_r. reflexivity.
Qed.

Lemma sampling_read (p : pins) (w : world) (value : Z) :
  monitoring w = true -> half_sec w = 0%Z -> voltage_sense p = Some value ->
  sampling p w =
  (Ok tt,
   {| b_cb_down := b_cb_down w; b_cc_down := b_cc_down w;
      b_ca_down := b_ca_down w; monitoring := true;
      voltage := voltage w ++ [volts_of value]; half_sec := 0%Z;
      stdout :=
        stdout w ++
        [Fmt "minutes %4.2f, voltage = %2.3f"
             [inject_Z (len (voltage w ++ [volts_of value])) /
              samples_per_minute; volts_of value]];
      sensor_reads := S (sensor_reads w) |}).
Proof.
  intros Hm Hh Hs.
  destruct w as [cb cc ca m vs h out n]. simpl in Hm, Hh. subst m h.
  unfold sampling, get_volts, read_voltage_sense.
  rewrite !bind_get. fields. change (true && (0 =? 0)%Z) with true.
  cbv iota. rewrite Hs.
  rewrite !bind_assoc, bind_modify. fields.
  rewrite bind_ret, bind_assoc.
  rewrite bind_truediv_ok by reflexivity.
  rewrite bind_truediv_ok by reflexivity.
  rewrite bind_modify. fields. rewrite bind_get. fields.
  rewrite bind_truediv_ok by reflexivity.
  reflexivity.
Qed.

Lemma sampling_fault (p : pins) (w : world) :
  monitoring w = true -> half_sec w = 0%Z -> voltage_sense p = None ->
  sampling p w = (Raise SensorFault, set_sensor_reads (S (sensor_reads w)) w).
Proof.
  intros Hm Hh Hs.
  destruct w as [cb cc ca m vs h out n]. simpl in Hm, Hh. subst m h.
  unfold sampling, get_volts, read_voltage_sense.
  rewrite !bind_get. fields. change (true && (0 =? 0)%Z) with true.
  cbv iota. rewrite Hs. reflexivity.
Qed.

(** The state-transition block either leaves the series alone or, entering
    Monitoring, empties it; it never extends it. *)
Lemma transition_series (e : BoundaryEvent) (w : world) :
  let w1 := snd (transition e w) in
  voltage w1 = voltage w \/ (voltage w1 = [] /\ monitoring w1 = true).
Proof.
  cbv zeta. unfold transition. rewrite bind_get.
  destruct (monitoring w) eqn:Hm, e;
    try (left; reflexivity); try (right; split; reflexivity).
  left. rewrite bind_print. unfold bind.
  pose proof (estimate_capacity_series
                (set_stdout (stdout w ++ [end_monitoring_line]) w)) as Hs.
  unfold same_series, end_monitoring_line in Hs.
  destruct (estimate_capacity _) as [[l|x] w2]; simpl in *; exact Hs.
Qed.

Lemma handle_events_series (p : pins) (w : world) :
  let w1 := snd (handle_events p w) in
  voltage w1 = voltage w \/ (voltage w1 = [] /\ monitoring w1 = true).
Proof.
  cbv zeta. rewrite handle_events_unfold, handle_transitions_arbitrate.
  pose proof (transition_series
                (arbitrate (b_cb_down w && s_charge_begin p)
                           (b_cc_down w && s_charge_complete p)
                           (b_ca_down w && s_charge_abort p))
                (snd (poll p w))) as H.
  cbv zeta in H.
  replace (voltage (snd (poll p w))) with (voltage w) in H
    by (rewrite poll_eq; reflexivity).
  exact H.
Qed.

Lemma handle_events_counter (p : pins) (w : world) :
  half_sec (snd (handle_events p w)) = next_half_sec (half_sec w).
Proof.
  rewrite handle_events_unfold.
  pose proof (handle_transitions_counter
                (b_cb_down w && s_charge_begin p)
                (b_cc_down w && s_charge_complete p)
                (b_ca_down w && s_charge_abort p) (snd (poll p w))) as H.
  unfold same_counter in H. rewrite H, poll_eq. reflexivity.
Qed.

(** What the sampling check does to the state it is run from. *)
Lemma sampling_cases (p : pins) (w1 : world) :
  let w' := snd (sampling p w1) in
  monitoring w' = monitoring w1 /\ half_sec w' = half_sec w1 /\
  (voltage w' = voltage w1 \/
   (monitoring w1 = true /\ half_sec w1 = 0%Z /\
    exists value, voltage_sense p = Some value /\
                  voltage w' = voltage w1 ++ [volts_of value])).
Proof.
  cbv zeta.
  destruct (monitoring w1) eqn:Hm.
  - destruct (Z.eq_dec (half_sec w1) 0) as [Hh|Hh].
    + destruct (voltage_sense p) as [value|] eqn:Hs.
      * rewrite (sampling_read p w1 value Hm Hh Hs). simpl.
        repeat split; auto. right. repeat split; auto.
        exists value. auto.
      * rewrite (sampling_fault p w1 Hm Hh Hs). simpl. auto.
    + rewrite (sampling_off_boundary p w1 Hh). simpl. auto.
  - rewrite (sampling_idle p w1 Hm). simpl. auto.
Qed.

Lemma tick_world (p : pins) (w : world) :
  snd (tick p w) = snd (handle_events p w) \/
  (fst (handle_events p w) = Ok tt /\
   snd (tick p w) = snd (sampling p (snd (handle_events p w)))).
Proof.
  rewrite tick_unfold.
  destruct (handle_events p w) as [[[]|e] w1]; simpl; auto.
Qed.

(** When the event handling of a pass returns with the machine in
    Monitoring, the pass either started in Monitoring and arbitrated no
    event, or started in Idle and arbitrated Complete. *)
Lemma handle_events_monitoring (p : pins) (w : world) :
  fst (handle_events p w) = Ok tt ->
  monitoring (snd (handle_events p w)) = true ->
  (monitoring w = true /\ arbitrated w p = NoEvent) \/
  (monitoring w = false /\ arbitrated w p = Complete).
Proof.
  rewrite handle_events_unfold, handle_transitions_arbitrate.
  change (arbitrate (b_cb_down w && s_charge_begin p)
                    (b_cc_down w && s_charge_complete p)
                    (b_ca_down w && s_charge_abort p))
    with (arbitrated w p).
  assert (Hpm : monitoring (snd (poll p w)) = monitoring w)
    by (rewrite poll_eq; reflexivity).
  set (w0 := snd (poll p w)) in *.
  destruct (monitoring w) eqn:Hm.
  - destruct (arbitrated w p).
    + intros _ _. left. auto.
    + destruct (voltage w0) as [|v rest] eqn:Hv.
      * rewrite (transition_begin_empty w0 Hpm Hv). discriminate.
      * destruct (Qeq_dec v (last rest v)) as [Heq|Hne].
        -- rewrite (transition_begin_flat w0 v rest Hpm Hv Heq).
           discriminate.
        -- rewrite (transition_begin_ok w0 v rest Hpm Hv Hne).
           simpl. intros _ H. discriminate H.
    + unfold transition. rewrite bind_get, Hpm. simpl.
      intros _ H. discriminate H.
    + unfold transition. rewrite bind_get, Hpm. simpl.
      intros _ H. discriminate H.
  - unfold transition. rewrite bind_get, Hpm.
    destruct (arbitrated w p); simpl; intros _ H;
      try (rewrite Hpm in H; discriminate H).
    right. auto.
Qed.

(** A pass that starts in Idle and arbitrates no Complete does only what
    [poll] does. *)
Lemma tick_idle_no_complete (p : pins) (w : world) :
  monitoring w = false ->
  arbitrated w p <> Complete ->
  handle_events p w = (Ok tt, snd (poll p w)) /\
  tick p w = (Ok tt, snd (poll p w)).
Proof.
  intros Hm Hne.
  assert (Hpm : monitoring (snd (poll p w)) = false)
    by (rewrite poll_eq; exact Hm).
  assert (He : handle_events p w = (Ok tt, snd (poll p w))).
  { rewrite handle_events_unfold, handle_transitions_arbitrate.
    change (arbitrate (b_cb_down w && s_charge_begin p)
                      (b_cc_down w && s_charge_complete p)
                      (b_ca_down w && s_charge_abort p))
      with (arbitrated w p).
    unfold transition. rewrite bind_get, Hpm.
    destruct (arbitrated w p); try contradiction; reflexivity. }
  split; [exact He|].
  rewrite tick_unfold, He. apply sampling_idle. exact Hpm.
Qed.

(** C7, amended. In every pass of the main loop, from any state, and so
    from every reachable state whatever the number of passes before it:
    the blocks before the sampling check never extend the series; if the
    machine is Idle when the sampling check is reached, or the wrapping
    counter is not zero there, the pass leaves the series as the event
    handling left it; a pass changes the series after event handling only
    by appending one value, and then the machine is in Monitoring and the
    counter is zero; a pass that ends in Idle leaves the series exactly as
    it found it; a pass that starts in Idle and arbitrates no Complete
    stays Idle, leaves the series as it found it and does not read the
    sensor; and a pass that appends a sample either started in Monitoring
    with no event arbitrated or started in Idle with Complete arbitrated. *)
Theorem sampling_gated (p : pins) (w : world) :
  let w1 := snd (handle_events p w) in
  let w' := snd (tick p w) in
  (voltage w1 = voltage w \/ voltage w1 = []) /\
  half_sec w1 = next_half_sec (half_sec w) /\
  (monitoring w1 = false -> voltage w' = voltage w1) /\
  (half_sec w1 <> 0%Z -> voltage w' = voltage w1) /\
  (voltage w' = voltage w1 \/
   (monitoring w1 = true /\ half_sec w1 = 0%Z /\
    exists v, voltage w' = voltage w1 ++ [v])) /\
  monitoring w' = monitoring w1 /\ half_sec w' = half_sec w1 /\
  (monitoring w' = false -> voltage w' = voltage w) /\
  (monitoring w = false -> arbitrated w p <> Complete ->
   monitoring w1 = false /\ monitoring w' = false /\
   voltage w' = voltage w /\ sensor_reads w' = sensor_reads w) /\
  (voltage w' <> voltage w1 ->
   (monitoring w = true /\ arbitrated w p = NoEvent) \/
   (monitoring w = false /\ arbitrated w p = Complete)).
Proof.
  cbv zeta.
  pose proof (handle_events_series p w) as Hser. cbv zeta in Hser.
  pose proof (handle_events_counter p w) as Hcnt.
  pose proof (sampling_cases p (snd (handle_events p w))) as Hs.
  cbv zeta in Hs. destruct Hs as (Hsm & Hsh & Hsv).
  assert (Hstep :
    monitoring (snd (tick p w)) = monitoring (snd (handle_events p w)) /\
    half_sec (snd (tick p w)) = half_sec (snd (handle_events p w)) /\
    (voltage (snd (tick p w)) = voltage (snd (handle_events p w)) \/
     (monitoring (snd (handle_events p w)) = true /\
      half_sec (snd (handle_events p w)) = 0%Z /\
      exists v, voltage (snd (tick p w)) =
                voltage (snd (handle_events p w)) ++ [v]))).
  { destruct (tick_world p w) as [Ht|[_ Ht]]; rewrite Ht.
    - auto.
    - repeat split; auto.
      destruct Hsv as [Hsv|(Hm & Hh & value & _ & Hv)]; [left; exact Hsv|].
      right. repeat split; auto. exists (volts_of value). exact Hv. }
  destruct Hstep as (Hm' & Hh' & Hv').
  split; [destruct Hser as [Hser|[Hser _]]; auto|].
  split; [exact Hcnt|].
  split.
  { intro Hidle. destruct Hv' as [Hv'|(Hm & _)]; [exact Hv'|congruence]. }
  split.
  { intro Hoff. destruct Hv' as [Hv'|(_ & Hh & _)]; [exact Hv'|contradiction]. }
  split; [exact Hv'|].
  split; [exact Hm'|].
  split; [exact Hh'|].
  split.
  { intro Hidle. rewrite Hm' in Hidle.
    destruct Hv' as [Hv'|(Hm & _)]; [|congruence].
    rewrite Hv'. destruct Hser as [Hser|[_ Hm]]; [exact Hser|congruence]. }
  split.
  { intros Hidle Hne.
    destruct (tick_idle_no_complete p w Hidle Hne) as [He Ht].
    rewrite He, Ht, poll_eq. simpl. auto. }
  intro Hchanged.
  apply handle_events_monitoring.
  - destruct (tick_world p w) as [Ht|[Hok _]]; [|exact Hok].
    rewrite Ht in Hchanged. contradiction Hchanged. reflexivity.
  - destruct Hv' as [Hv'|(Hm & _)]; [contradiction|exact Hm].
Qed.

Lemma sampling_gated_witness :
  (monitoring (snd (handle_events all_released init)) = false /\
   half_sec (snd (handle_events all_released init)) <> 0%Z /\
   voltage (snd (tick all_released init)) =
   voltage (snd (handle_events all_released init))) /\
  (monitoring idle_wrap_world = false /\
   arbitrated idle_wrap_world all_released <> Complete /\
   half_sec (snd (handle_events all_released idle_wrap_world)) = 0%Z /\
   monitoring (snd (tick all_released idle_wrap_world)) = false /\
   voltage (snd (tick all_released idle_wrap_world)) =
   voltage idle_wrap_world /\
   sensor_reads (snd (tick all_released idle_wrap_world)) =
   sensor_reads idle_wrap_world /\
   monitoring (snd (handle_events all_released idle_wrap_world)) = false /\
   voltage (snd (tick all_released idle_wrap_world)) =
   voltage (snd (handle_events all_released idle_wrap_world))) /\
  (voltage (snd (tick all_released sampling_due_world)) <>
   voltage (snd (handle_events all_released sampling_due_world)) /\
   monitoring sampling_due_world = true /\
   arbitrated sampling_due_world all_released = NoEvent) /\
  (voltage (snd (tick all_released complete_release_world)) <>
   voltage (snd (handle_events all_released complete_release_world)) /\
   monitoring complete_release_world = false /\
   arbitrated complete_release_world all_released = Complete).
Proof.
  split; [|split; [|split]].
  - assert (Hm : monitoring (snd (handle_events all_released init)) = false)
      by reflexivity.
    assert (Hh : half_sec (snd (handle_events all_released init)) <> 0%Z)
      by (vm_compute; discriminate).
    destruct (sampling_gated all_released init)
      as (_ & _ & _ & Hoff & _).
    split; [exact Hm|]. split; [exact Hh|exact (Hoff Hh)].
  - assert (Hm : monitoring idle_wrap_world = false) by reflexivity.
    assert (Hne : arbitrated idle_wrap_world all_released <> Complete)
      by (vm_compute; discriminate).
    destruct (sampling_gated all_released idle_wrap_world)
      as (_ & _ & Hcheck & _ & _ & _ & _ & Hend & Hidle & _).
    destruct (Hidle Hm Hne) as (Hm1 & Hm' & _ & Hr).
    split; [exact Hm|]. split; [exact Hne|]. split; [reflexivity|].
    split; [exact Hm'|]. split; [exact (Hend Hm')|].
    split; [exact Hr|]. split; [exact Hm1|exact (Hcheck Hm1)].
  - assert (Hc : voltage (snd (tick all_released sampling_due_world)) <>
                 voltage (snd (handle_events all_released
                                             sampling_due_world)))
      by (vm_compute; discriminate).
    destruct (sampling_gated all_released sampling_due_world)
      as (_ & _ & _ & _ & _ & _ & _ & _ & _ & Happ).
    split; [exact Hc|].
    destruct (Happ Hc) as [[Hm He]|[Hm _]]; [split; assumption|].
    discriminate Hm.
  - assert (Hc : voltage (snd (tick all_released complete_release_world)) <>
                 voltage (snd (handle_events all_released
                                             complete_release_world)))
      by (vm_compute; discriminate).
    destruct (sampling_gated all_released complete_release_world)
      as (_ & _ & _ & _ & _ & _ & _ & _ & _ & Happ).
    split; [exact Hc|].
    destruct (Happ Hc) as [[Hm _]|[Hm He]]; [discriminate Hm|].
    split; assumption.
Defined.

(** C7 as stated fails when the state of the pass is taken at its start.
    From the initial state, after fifty-eight quiet passes and one with
    "charge complete" pressed, the machine is Idle with an empty series and
    the counter at 59; on the next pass, which starts in Idle, the button
    is released, the counter wraps, and a sample is read and appended. *)
Lemma idle_start_sample_counterexample :
  let r := run press_complete_before_wrap init in
  fst r = Ok tt /\
  monitoring (snd r) = false /\ voltage (snd r) = [] /\
  half_sec (snd r) = 59%Z /\ sensor_reads (snd r) = 0%nat /\
  fst (tick all_released (snd r)) = Ok tt /\
  voltage (snd (tick all_released (snd r))) = [volts_of 40000] /\
  sensor_reads (snd (tick all_released (snd r))) = 1%nat.
Proof.
  cbv zeta. repeat split; vm_compute; reflexivity.
Qed.

Lemma handle_events_arbitrated (p : pins) (w : world) :
  handle_events p w = transition (arbitrated w p) (snd (poll p w)).
Proof.
  rewrite handle_events_unfold, handle_transitions_arbitrate. reflexivity.
Qed.

Lemma handle_events_complete_idle (p : pins) (w : world) :
  monitoring w = false ->
  arbitrated w p = Complete ->
  handle_events p w =
  (Ok tt,
   {| b_cb_down := negb (s_charge_begin p);
      b_cc_down := negb (s_charge_complete p);
      b_ca_down := negb (s_charge_abort p);
      monitoring := true; voltage := [];
      half_sec := next_half_sec (half_sec w);
      stdout := stdout w ++ [Fmt "begin monitoring" []];
      sensor_reads := sensor_reads w |}).
Proof.
  intros Hm He. rewrite handle_events_arbitrated, He, poll_eq.
  unfold transition. rewrite bind_get. simpl. rewrite Hm. reflexivity.
Qed.

(** C9. Event handling precedes the sampling check within a pass: when a
    Complete is arbitrated in Idle on the pass in which the counter wraps
    from 59 to zero, the series is emptied, the machine enters Monitoring,
    and the same pass appends the voltage it reads, so the series holds its
    first sample at the end of the very pass of the transition. *)
Theorem first_sample_on_transition_tick (p : pins) (w : world) (value : Z) :
  monitoring w = false ->
  half_sec w = 59%Z ->
  arbitrated w p = Complete ->
  voltage_sense p = Some value ->
  exists w1 w',
    handle_events p w = (Ok tt, w1) /\
    monitoring w1 = true /\ voltage w1 = [] /\ half_sec w1 = 0%Z /\
    sampling p w1 = (Ok tt, w') /\
    tick p w = (Ok tt, w') /\
    monitoring w' = true /\ half_sec w' = 0%Z /\
    voltage w' = [volts_of value].
Proof.
  intros Hm Hh He Hs.
  pose proof (handle_events_complete_idle p w Hm He) as H1.
  rewrite Hh in H1. change (next_half_sec 59) with 0%Z in H1.
  do 2 eexists. split; [exact H1|].
  split; [reflexivity|]. split; [reflexivity|]. split; [reflexivity|].
  split.
  - apply (sampling_read p _ value); [reflexivity|reflexivity|exact Hs].
  - split.
    + rewrite tick_unfold, H1.
      apply (sampling_read p _ value); [reflexivity|reflexivity|exact Hs].
    + simpl. auto.
Qed.

Lemma first_sample_on_transition_tick_witness :
  monitoring complete_release_world = false /\
  half_sec complete_release_world = 59%Z /\
  arbitrated complete_release_world all_released = Complete /\
  voltage_sense all_released = Some 40000%Z /\
  exists w1 w',
    handle_events all_released complete_release_world = (Ok tt, w1) /\
    monitoring w1 = true /\ voltage w1 = [] /\ half_sec w1 = 0%Z /\
    sampling all_released w1 = (Ok tt, w') /\
    tick all_released complete_release_world = (Ok tt, w') /\
    monitoring w' = true /\ half_sec w' = 0%Z /\
    voltage w' = [volts_of 40000].
Proof.
  split; [reflexivity|]. split; [reflexivity|].
  split; [reflexivity|]. split; [reflexivity|].
  apply (first_sample_on_transition_tick all_released complete_release_world
           40000%Z); reflexivity.
Defined.

(** ** Sensor faults *)

(** C8, amended. If reading the voltage sensor raises on a pass that
    reaches the sampling check in Monitoring with the counter at zero, the
    sensor has been read exactly once (no retry), nothing is appended to
    the series or printed (no sample, no substitute), and the exception is
    not caught: the pass and the whole run end with it, so that no later
    pass is processed. *)
Theorem sensor_fault_propagates (p : pins) (ps : list pins) (w : world) :
  let w1 := snd (handle_events p w) in
  fst (handle_events p w) = Ok tt ->
  monitoring w1 = true ->
  half_sec w1 = 0%Z ->
  voltage_sense p = None ->
  tick p w = (Raise SensorFault, set_sensor_reads (S (sensor_reads w1)) w1) /\
  run (p :: ps) w =
  (Raise SensorFault, set_sensor_reads (S (sensor_reads w1)) w1) /\
  voltage (snd (run (p :: ps) w)) = voltage w1 /\
  stdout (snd (run (p :: ps) w)) = stdout w1 /\
  sensor_reads (snd (run (p :: ps) w)) = S (sensor_reads w1).
Proof.
  cbv zeta. intros Hok Hm Hh Hs.
  assert (Ht : tick p w =
               (Raise SensorFault,
                set_sensor_reads (S (sensor_reads (snd (handle_events p w))))
                                 (snd (handle_events p w)))).
  { rewrite tick_unfold.
    destruct (handle_events p w) as [[[]|e] w1] eqn:He; simpl in *.
    - apply sampling_fault; assumption.
    - discriminate. }
  assert (Hr : run (p :: ps) w =
               (Raise SensorFault,
                set_sensor_reads (S (sensor_reads (snd (handle_events p w))))
                                 (snd (handle_events p w)))).
  { simpl. apply bind_eq_raise. exact Ht. }
  split; [exact Ht|]. split; [exact Hr|].
  rewrite Hr. destruct (snd (handle_events p w)); repeat split.
Qed.

Lemma sensor_fault_propagates_witness :
  fst (handle_events sensor_failing sampling_due_world) = Ok tt /\
  monitoring (snd (handle_events sensor_failing sampling_due_world)) = true /\
  half_sec (snd (handle_events sensor_failing sampling_due_world)) = 0%Z /\
  voltage_sense sensor_failing = None /\
  fst (run [sensor_failing; all_released] sampling_due_world) =
  Raise SensorFault /\
  voltage (snd (run [sensor_failing; all_released] sampling_due_world)) =
  [3.1] /\
  sensor_reads (snd (run [sensor_failing; all_released] sampling_due_world)) =
  1%nat.
Proof.
  split; [reflexivity|]. split; [reflexivity|].
  split; [reflexivity|]. split; [reflexivity|].
  destruct (sensor_fault_propagates sensor_failing [all_released]
              sampling_due_world)
    as (_ & Hr & Hv & _ & Hn); try reflexivity.
  rewrite Hr. split; [reflexivity|]. rewrite Hr in Hv, Hn.
  split; [exact Hv|exact Hn].
Defined.

(** C8 as stated fails: after a failed sensor read on a sampling pass the
    next pass is not processed.  The run stops with the exception; the
    counter, which every pass advances, still has the value the faulting
    pass gave it. *)
Lemma sensor_fault_counterexample :
  voltage_sense sensor_failing = None /\
  fst (tick sensor_failing sampling_due_world) = Raise SensorFault /\
  fst (run [sensor_failing; all_released] sampling_due_world) =
  Raise SensorFault /\
  half_sec (snd (run [sensor_failing; all_released] sampling_due_world)) =
  half_sec (snd (tick sensor_failing sampling_due_world)) /\
  half_sec (snd (tick all_released
                      (snd (tick sensor_failing sampling_due_world)))) <>
  half_sec (snd (tick sensor_failing sampling_due_world)).
Proof.
  repeat split; try reflexivity. vm_compute. discriminate.
Qed.

(** ** Further properties of the script *)

(** *** Reading the voltage *)

Lemma get_volts_ok (p : pins) (w : world) (value : Z) :
  voltage_sense p = Some value ->
  get_volts p w =
  (Ok (volts_of value), set_sensor_reads (S (sensor_reads w)) w).
Proof.
  intro Hs. unfold get_volts, read_voltage_sense. rewrite Hs.
  rewrite !bind_assoc, bind_modify, bind_ret, bind_truediv_ok by reflexivity.
  rewrite truediv_ok by reflexivity. reflexivity.
Qed.

Lemma get_volts_none (p : pins) (w : world) :
  voltage_sense p = None ->
  get_volts p w =
  (Raise SensorFault, set_sensor_reads (S (sensor_reads w)) w).
Proof.
  intro Hs. unfold get_volts, read_voltage_sense. rewrite Hs. reflexivity.
Qed.

Lemma volts_of_linear (value : Z) :
  volts_of value == inject_Z value * (33000 # 448266240).
Proof. unfold volts_of. field. Qed.

Lemma volts_of_le (a b : Z) : (a <= b)%Z -> volts_of a <= volts_of b.
Proof.
  intro H. rewrite !volts_of_linear.
  apply Qmult_le_compat_r; [|discriminate].
  rewrite <- Zle_Qle. exact H.
Qed.

(** X1. A successful read: [get_volts] returns the sensor value scaled by
    3.3 / 65536 / 0.684, counts one read of the sensor and changes nothing
    else; for a 16-bit value the voltage lies in [0, 4.825). *)
Theorem get_volts_reading (p : pins) (w : world) (value : Z) :
  voltage_sense p = Some value ->
  adc_range value ->
  exists v,
    get_volts p w = (Ok v, set_sensor_reads (S (sensor_reads w)) w) /\
    v * 65536 * 0.684 == inject_Z value * 3.3 /\
    0 <= v /\ v < 4.825.
Proof.
  intros Hs [Hlo Hhi]. exists (volts_of value).
  split; [apply get_volts_ok; exact Hs|].
  split; [unfold volts_of; field|].
  split.
  - apply Qle_trans with (volts_of 0); [discriminate|].
    apply volts_of_le. exact Hlo.
  - apply Qle_lt_trans with (volts_of 65535); [|reflexivity].
    apply volts_of_le. lia.
Qed.

Lemma get_volts_reading_witness :
  voltage_sense all_released = Some 40000%Z /\ adc_range 40000 /\
  exists v,
    get_volts all_released init =
    (Ok v, set_sensor_reads (S (sensor_reads init)) init) /\
    v * 65536 * 0.684 == inject_Z 40000 * 3.3 /\
    0 <= v /\ v < 4.825.
Proof.
  split; [reflexivity|]. split; [unfold adc_range; lia|].
  apply (get_volts_reading all_released init 40000).
  - reflexivity.
  - unfold adc_range. lia.
Defined.

Lemma volts_of_lt (a b : Z) : (a < b)%Z -> volts_of a < volts_of b.
Proof.
  intro H. rewrite !volts_of_linear.
  apply Qmult_lt_compat_r; [reflexivity|].
  rewrite <- Zlt_Qlt. exact H.
Qed.

(** X2. The voltage returned by [get_volts] grows with the sensor value:
    a reading that is not smaller gives a voltage that is not smaller, and
    a strictly larger reading gives a strictly larger voltage. *)
Theorem get_volts_monotone (p1 p2 : pins) (w1 w2 : world) (a b : Z)
        (v1 v2 : Q) :
  voltage_sense p1 = Some a ->
  voltage_sense p2 = Some b ->
  (a <= b)%Z ->
  fst (get_volts p1 w1) = Ok v1 ->
  fst (get_volts p2 w2) = Ok v2 ->
  v1 <= v2 /\ ((a < b)%Z -> v1 < v2).
Proof.
  intros H1 H2 Hab E1 E2.
  rewrite (get_volts_ok p1 w1 a H1) in E1.
  rewrite (get_volts_ok p2 w2 b H2) in E2.
  simpl in E1, E2. inversion E1. inversion E2. subst.
  split.
  - apply volts_of_le. exact Hab.
  - apply volts_of_lt.
Qed.

Lemma get_volts_monotone_witness :
  voltage_sense (reading 30000) = Some 30000%Z /\
  voltage_sense (reading 40000) = Some 40000%Z /\
  (30000 <= 40000)%Z /\ (30000 < 40000)%Z /\
  fst (get_volts (reading 30000) init) = Ok (volts_of 30000) /\
  fst (get_volts (reading 40000) sampling_due_world) =
  Ok (volts_of 40000) /\
  volts_of 30000 <= volts_of 40000 /\
  volts_of 30000 < volts_of 40000.
Proof.
  assert (Hle : (30000 <= 40000)%Z) by lia.
  assert (Hlt : (30000 < 40000)%Z) by lia.
  split; [reflexivity|]. split; [reflexivity|].
  split; [exact Hle|]. split; [exact Hlt|].
  split; [reflexivity|]. split; [reflexivity|].
  destruct (get_volts_monotone (reading 30000) (reading 40000)
              init sampling_due_world 30000 40000
              (volts_of 30000) (volts_of 40000)
              eq_refl eq_refl Hle eq_refl eq_refl) as [H1 H2].
  split; [exact H1|exact (H2 Hlt)].
Defined.

(** X3. [get_volts] fails exactly when reading the sensor raises, and only
    with the sensor's exception: it never divides by zero.  The failed read
    is counted and nothing else changes. *)
Theorem get_volts_fault (p : pins) (w : world) (e : exn) :
  (fst (get_volts p w) = Raise e <->
   e = SensorFault /\ voltage_sense p = None) /\
  (voltage_sense p = None ->
   snd (get_volts p w) = set_sensor_reads (S (sensor_reads w)) w).
Proof.
  split.
  - destruct (voltage_sense p) as [value|] eqn:Hs.
    + rewrite (get_volts_ok p w value Hs). simpl.
      split; [discriminate|]. intros [_ H]. discriminate H.
    + rewrite (get_volts_none p w Hs). simpl.
      split.
      * intro H. inversion H. auto.
      * intros [-> _]. reflexivity.
  - intro Hs. rewrite (get_volts_none p w Hs). reflexivity.
Qed.

Lemma get_volts_fault_witness :
  voltage_sense sensor_failing = None /\
  fst (get_volts sensor_failing init) = Raise SensorFault /\
  snd (get_volts sensor_failing init) =
  set_sensor_reads (S (sensor_reads init)) init.
Proof.
  split; [reflexivity|].
  destruct (get_volts_fault sensor_failing init SensorFault) as [Hiff Hst].
  split.
  - apply Hiff. split; reflexivity.
  - apply Hst. reflexivity.
Defined.

(** *** The estimator *)

Lemma estimate_shape (v : Q) (rest : list Q) :
  let l := estimate (v :: rest) in
  v_monitor_start l = v /\
  v_monitor_end l = last rest v /\
  ratio l = (v - v_cutoff l) / (v - last rest v) /\
  energy_total l = ratio l * energy_used l /\
  v_cutoff l = -0.449 * i_avg l + 3.323.
Proof.
  cbv zeta. unfold estimate.
  cbv beta iota zeta delta
      [samples v_sum i_sum i_avg energy_used v_monitor_start v_monitor_end
       v_cutoff ratio energy_total hd].
  rewrite (last_cons v rest 0). repeat split.
Qed.

Lemma estimate_capacity_result (w : world) (l : locals) :
  fst (estimate_capacity w) = Ok l ->
  exists v rest,
    voltage w = v :: rest /\ ~ v == last rest v /\ l = estimate (v :: rest).
Proof.
  intro H. destruct (voltage w) as [|v rest] eqn:Hv.
  - rewrite (estimate_capacity_empty w Hv) in H. discriminate H.
  - destruct (Qeq_dec v (last rest v)) as [Heq|Hne].
    + rewrite (estimate_capacity_flat w v rest Hv Heq) in H.
      discriminate H.
    + rewrite (estimate_capacity_ok w v rest Hv Hne) in H.
      simpl in H. inversion H. exists v, rest. auto.
Qed.

(** X4. The estimator returns exactly when the series is non-empty and its
    first and last samples differ, and the values it has then computed are
    those of the closed form [estimate] on the series. *)
Theorem estimate_capacity_completes_iff (w : world) (l : locals) :
  fst (estimate_capacity w) = Ok l <->
  estimable (voltage w) /\ l = estimate (voltage w).
Proof.
  split.
  - intro H. apply estimate_capacity_result in H.
    destruct H as (v & rest & Hv & Hne & ->). rewrite Hv.
    split; [|reflexivity]. exists v, rest. auto.
  - intros [(v & rest & Hv & Hne) ->].
    rewrite (estimate_capacity_ok w v rest Hv Hne), Hv. reflexivity.
Qed.

Lemma estimate_capacity_completes_iff_witness :
  estimable (voltage (monitoring_world [3.3; 3.0])) /\
  fst (estimate_capacity (monitoring_world [3.3; 3.0])) =
  Ok (estimate [3.3; 3.0]).
Proof.
  assert (He : estimable (voltage (monitoring_world [3.3; 3.0]))).
  { exists 3.3, [3.0]. split; [reflexivity|].
    simpl. intro H. apply Qeq_bool_iff in H. discriminate H. }
  split; [exact He|].
  apply (proj2 (estimate_capacity_completes_iff
                  (monitoring_world [3.3; 3.0]) (estimate [3.3; 3.0]))).
  split; [exact He|reflexivity].
Defined.

(** X5. Whatever its outcome, the estimator changes nothing but the printed
    text, to which it adds between one and seven lines; and the only
    exception it raises is [ZeroDivisionError]: indexing the series never
    fails, because the division by the number of samples faults first on
    an empty series. *)
Theorem estimate_capacity_effect (w : world) :
  (exists new,
      snd (estimate_capacity w) = set_stdout (stdout w ++ new) w /\
      (1 <= List.length new <= 7)%nat) /\
  (forall e, fst (estimate_capacity w) = Raise e -> e = ZeroDivisionError).
Proof.
  destruct (voltage w) as [|v rest] eqn:Hv.
  - rewrite (estimate_capacity_empty w Hv). split.
    + eexists. split; [reflexivity|]. simpl. lia.
    + intros e H. inversion H. reflexivity.
  - destruct (Qeq_dec v (last rest v)) as [Heq|Hne].
    + rewrite (estimate_capacity_flat w v rest Hv Heq). split.
      * eexists. split; [reflexivity|]. simpl. lia.
      * intros e H. inversion H. reflexivity.
    + rewrite (estimate_capacity_ok w v rest Hv Hne). split.
      * eexists. split; [reflexivity|]. simpl. lia.
      * intros e H. discriminate H.
Qed.

Lemma estimate_capacity_effect_witness :
  fst (estimate_capacity (monitoring_world [])) = Raise ZeroDivisionError /\
  ZeroDivisionError = ZeroDivisionError.
Proof.
  split; [reflexivity|].
  apply (proj2 (estimate_capacity_effect (monitoring_world []))
               ZeroDivisionError).
  reflexivity.
Defined.

Lemma estimate_total_split (w : world) (l : locals) :
  fst (estimate_capacity w) = Ok l ->
  ~ v_monitor_start l - v_monitor_end l == 0 /\
  energy_total l ==
  energy_used l +
  (v_monitor_end l - v_cutoff l) *
  (energy_used l / (v_monitor_start l - v_monitor_end l)).
Proof.
  intro H. apply estimate_capacity_result in H.
  destruct H as (v & rest & Hv & Hne & ->).
  destruct (estimate_shape v rest) as (Hs & He & Hr & Ht & _).
  cbv zeta in *. rewrite Ht, Hr, Hs, He.
  assert (Hd : ~ v - last rest v == 0) by (intro H0; apply Hne; lra).
  split; [exact Hd|]. field. exact Hd.
Qed.

(** X6. The prediction is a linear extrapolation to the cutoff voltage: for
    a falling series with a positive charge used, the predicted total
    capacity is at least the charge used exactly when the last sample is
    still at or above the adjusted cutoff voltage. *)
Theorem prediction_vs_charge_used (w : world) (l : locals) :
  fst (estimate_capacity w) = Ok l ->
  v_monitor_end l < v_monitor_start l ->
  0 < energy_used l ->
  (energy_used l <= energy_total l <-> v_cutoff l <= v_monitor_end l).
Proof.
  intros H Hfall Hu.
  destruct (estimate_total_split w l H) as [Hd Ht].
  set (t := energy_used l / (v_monitor_start l - v_monitor_end l)) in *.
  assert (Hpos : 0 < t).
  { unfold t. apply Qlt_shift_div_l; lra. }
  rewrite Ht. split; intro Hle.
  - destruct (Qlt_le_dec (v_monitor_end l) (v_cutoff l)) as [Hlt|Hge];
      [|exact Hge].
    exfalso.
    assert (Hneg : (v_cutoff l - v_monitor_end l) * t > 0).
    { apply Qmult_lt_0_compat; lra. }
    lra.
  - assert (Hnn : 0 <= (v_monitor_end l - v_cutoff l) * t).
    { apply Qmult_le_0_compat; lra. }
    lra.
Qed.

Lemma prediction_vs_charge_used_witness :
  fst (estimate_capacity (monitoring_world [3.3; 3.0])) =
  Ok (estimate [3.3; 3.0]) /\
  v_monitor_end (estimate [3.3; 3.0]) <
  v_monitor_start (estimate [3.3; 3.0]) /\
  0 < energy_used (estimate [3.3; 3.0]) /\
  ~ v_cutoff (estimate [3.3; 3.0]) <= v_monitor_end (estimate [3.3; 3.0]) /\
  ~ energy_used (estimate [3.3; 3.0]) <= energy_total (estimate [3.3; 3.0]).
Proof.
  assert (H1 : fst (estimate_capacity (monitoring_world [3.3; 3.0])) =
               Ok (estimate [3.3; 3.0])) by reflexivity.
  assert (H2 : v_monitor_end (estimate [3.3; 3.0]) <
               v_monitor_start (estimate [3.3; 3.0])) by reflexivity.
  assert (H3 : 0 < energy_used (estimate [3.3; 3.0])) by reflexivity.
  assert (H4 : ~ v_cutoff (estimate [3.3; 3.0]) <=
                 v_monitor_end (estimate [3.3; 3.0])).
  { intro H. vm_compute in H. apply H. reflexivity. }
  repeat (split; [assumption|]).
  intro H5. apply H4.
  apply (proj1 (prediction_vs_charge_used
                  (monitoring_world [3.3; 3.0]) (estimate [3.3; 3.0])
                  H1 H2 H3)).
  exact H5.
Defined.

(** X7. A rising series is not rejected: when the last sample is above the
    first and the first is above the adjusted cutoff voltage, the estimator
    returns a negative predicted total capacity. *)
Theorem rising_series_negative_prediction (w : world) (l : locals) :
  fst (estimate_capacity w) = Ok l ->
  v_monitor_start l < v_monitor_end l ->
  v_cutoff l < v_monitor_start l ->
  0 < energy_used l ->
  energy_total l < 0.
Proof.
  intros H Hrise Hcut Hu.
  destruct (estimate_total_split w l H) as [Hd Ht].
  assert (Hsplit :
    energy_total l ==
    - ((v_monitor_start l - v_cutoff l) *
       (energy_used l / (v_monitor_end l - v_monitor_start l)))).
  { rewrite Ht. field. split; lra. }
  assert (Hpos : 0 < energy_used l / (v_monitor_end l - v_monitor_start l)).
  { apply Qlt_shift_div_l; lra. }
  assert (Hprod :
    0 < (v_monitor_start l - v_cutoff l) *
        (energy_used l / (v_monitor_end l - v_monitor_start l))).
  { apply Qmult_lt_0_compat; lra. }
  lra.
Qed.

Lemma rising_series_negative_prediction_witness :
  fst (estimate_capacity (monitoring_world [3.3; 3.4])) =
  Ok (estimate [3.3; 3.4]) /\
  energy_total (estimate [3.3; 3.4]) < 0.
Proof.
  assert (H1 : fst (estimate_capacity (monitoring_world [3.3; 3.4])) =
               Ok (estimate [3.3; 3.4])) by reflexivity.
  split; [exact H1|].
  apply (rising_series_negative_prediction
           (monitoring_world [3.3; 3.4]) (estimate [3.3; 3.4]) H1);
    reflexivity.
Defined.

(** *** The main loop: counter and faults *)

Lemma tick_counter (p : pins) (w : world) :
  half_sec (snd (tick p w)) = next_half_sec (half_sec w).
Proof.
  destruct (tick_world p w) as [Ht|[_ Ht]]; rewrite Ht.
  - apply handle_events_counter.
  - rewrite (sampling_counter p (snd (handle_events p w))).
    apply handle_events_counter.
Qed.

Lemma next_half_sec_range (h : Z) :
  (0 <= h < 60)%Z ->
  (0 <= next_half_sec h < 60)%Z /\
  next_half_sec h = ((h + 1) mod 60)%Z.
Proof.
  intro Hh. unfold next_half_sec.
  destruct (Z.eqb_spec (h + 1) 60) as [E|E].
  - rewrite E. split; [lia|reflexivity].
  - rewrite Z.mod_small by lia. lia.
Qed.

Lemma len_cons {A} (x : A) (l : list A) : len (x :: l) = (len l + 1)%Z.
Proof. unfold len. simpl List.length. lia. Qed.

(** X8. The tick counter stays within 0..59 along every run that starts
    with it in that range, also when the run ends in an exception; after a
    run of n passes that completes it has advanced by n modulo 60. *)
Theorem counter_wraps (ps : list pins) (w : world) :
  (0 <= half_sec w < 60)%Z ->
  (0 <= half_sec (snd (run ps w)) < 60)%Z /\
  (fst (run ps w) = Ok tt ->
   half_sec (snd (run ps w)) = ((half_sec w + len ps) mod 60)%Z).
Proof.
  revert w. induction ps as [|p ps IH]; intros w Hh.
  - simpl. split; [exact Hh|]. intros _.
    change (len (@nil pins)) with 0%Z.
    rewrite Z.add_0_r, Z.mod_small by exact Hh. reflexivity.
  - pose proof (tick_counter p w) as Hc.
    destruct (next_half_sec_range (half_sec w) Hh) as [Hr Hm].
    simpl. unfold bind.
    destruct (tick p w) as [[[]|e] w1]; simpl in Hc.
    + rewrite <- Hc in Hr. destruct (IH w1 Hr) as [IH1 IH2].
      split; [exact IH1|]. intro Hok. rewrite (IH2 Hok), Hc, Hm, len_cons.
      rewrite Zplus_mod_idemp_l. f_equal. lia.
    + simpl. rewrite Hc. split; [exact Hr|discriminate].
Qed.

Lemma counter_wraps_witness :
  (0 <= half_sec init < 60)%Z /\
  fst (run (discharge_cycle 58) init) = Raise ZeroDivisionError /\
  (0 <= half_sec (snd (run (discharge_cycle 58) init)) < 60)%Z /\
  fst (run (repeat all_released 61) init) = Ok tt /\
  half_sec (snd (run (repeat all_released 61) init)) = 1%Z.
Proof.
  assert (Hi : (0 <= half_sec init < 60)%Z) by (simpl; lia).
  split; [exact Hi|].
  split; [vm_compute; reflexivity|].
  split; [apply (proj1 (counter_wraps (discharge_cycle 58) init Hi))|].
  assert (Hok : fst (run (repeat all_released 61) init) = Ok tt)
    by (vm_compute; reflexivity).
  split; [exact Hok|].
  rewrite (proj2 (counter_wraps (repeat all_released 61) init Hi) Hok).
  reflexivity.
Defined.

Lemma transition_raises (e0 : BoundaryEvent) (w : world) (e : exn) :
  fst (transition e0 w) = Raise e ->
  e = ZeroDivisionError /\ monitoring w = true /\ e0 = Begin /\
  ~ estimable (voltage w).
Proof.
  intro H. destruct (monitoring w) eqn:Hm.
  - destruct e0;
      try (unfold transition in H; rewrite bind_get, Hm in H;
           discriminate H).
    destruct (voltage w) as [|v rest] eqn:Hv.
    + rewrite (transition_begin_empty w Hm Hv) in H. inversion H.
      repeat split. intros (v & rest & Hc & _). discriminate Hc.
    + destruct (Qeq_dec v (last rest v)) as [Heq|Hne].
      * rewrite (transition_begin_flat w v rest Hm Hv Heq) in H.
        inversion H. repeat split.
        intros (v' & rest' & Hc & Hne). inversion Hc. subst.
        contradiction.
      * rewrite (transition_begin_ok w v rest Hm Hv Hne) in H.
        discriminate H.
  - unfold transition in H. rewrite bind_get, Hm in H.
    destruct e0; discriminate H.
Qed.

Lemma transition_begin_faults (w : world) :
  monitoring w = true ->
  ~ estimable (voltage w) ->
  fst (transition Begin w) = Raise ZeroDivisionError.
Proof.
  intros Hm Hn. destruct (voltage w) as [|v rest] eqn:Hv.
  - rewrite (transition_begin_empty w Hm Hv). reflexivity.
  - destruct (Qeq_dec v (last rest v)) as [Heq|Hne].
    + rewrite (transition_begin_flat w v rest Hm Hv Heq). reflexivity.
    + exfalso. apply Hn. exists v, rest. auto.
Qed.

Lemma sampling_raises (p : pins) (w : world) (e : exn) :
  fst (sampling p w) = Raise e <->
  e = SensorFault /\ monitoring w = true /\ half_sec w = 0%Z /\
  voltage_sense p = None.
Proof.
  split.
  - intro H. destruct (monitoring w) eqn:Hm.
    + destruct (Z.eq_dec (half_sec w) 0) as [Hh|Hh].
      * destruct (voltage_sense p) as [value|] eqn:Hs.
        -- rewrite (sampling_read p w value Hm Hh Hs) in H. discriminate H.
        -- rewrite (sampling_fault p w Hm Hh Hs) in H. inversion H. auto.
      * rewrite (sampling_off_boundary p w Hh) in H. discriminate H.
    + rewrite (sampling_idle p w Hm) in H. discriminate H.
  - intros (-> & Hm & Hh & Hs). rewrite (sampling_fault p w Hm Hh Hs).
    reflexivity.
Qed.

Lemma poll_frame (p : pins) (w : world) :
  monitoring (snd (poll p w)) = monitoring w /\
  voltage (snd (poll p w)) = voltage w /\
  stdout (snd (poll p w)) = stdout w /\
  sensor_reads (snd (poll p w)) = sensor_reads w /\
  half_sec (snd (poll p w)) = next_half_sec (half_sec w).
Proof. rewrite poll_eq. repeat split. Qed.

(** X9. A pass of the main loop ends in an exception in exactly two
    situations: with [ZeroDivisionError], when Begin is arbitrated while
    monitoring and the series is empty or has equal first and last samples;
    and with the sensor's exception, when event handling has returned, the
    machine is monitoring, the counter has wrapped to zero and the sensor
    read raises.  In particular a pass never raises [IndexError]. *)
Theorem tick_fault_cases (p : pins) (w : world) (e : exn) :
  fst (tick p w) = Raise e <->
  (e = ZeroDivisionError /\ monitoring w = true /\
   arbitrated w p = Begin /\ ~ estimable (voltage w)) \/
  (e = SensorFault /\ fst (handle_events p w) = Ok tt /\
   monitoring (snd (handle_events p w)) = true /\
   half_sec (snd (handle_events p w)) = 0%Z /\ voltage_sense p = None).
Proof.
  destruct (poll_frame p w) as (Hpm & Hpv & _).
  rewrite tick_unfold. split.
  - intro H. destruct (handle_events p w) as [[[]|e1] w1] eqn:He.
    + right. simpl. apply sampling_raises in H.
      destruct H as (-> & Hm & Hh & Hs). auto.
    + left. simpl in H. inversion H. subst e1.
      rewrite handle_events_arbitrated in He.
      destruct (transition_raises (arbitrated w p) (snd (poll p w)) e)
        as (-> & Hm & Hb & Hn); [rewrite He; reflexivity|].
      rewrite Hpm in Hm. rewrite Hpv in Hn. auto.
  - intros [(-> & Hm & Hb & Hn)|(-> & Hok & Hm & Hh & Hs)].
    + pose proof (transition_begin_faults (snd (poll p w))) as Hf.
      rewrite Hpm, Hpv in Hf. specialize (Hf Hm Hn).
      rewrite handle_events_arbitrated, Hb.
      destruct (transition Begin (snd (poll p w))) as [[[]|e1] w1];
        simpl in Hf; [discriminate Hf|]. inversion Hf. reflexivity.
    + destruct (handle_events p w) as [[[]|e1] w1]; simpl in *;
        [|discriminate Hok].
      apply sampling_raises. auto.
Qed.

Lemma tick_fault_cases_witness :
  (monitoring (begin_release_world [3.0]) = true /\
   arbitrated (begin_release_world [3.0]) all_released = Begin /\
   ~ estimable (voltage (begin_release_world [3.0])) /\
   fst (tick all_released (begin_release_world [3.0])) =
   Raise ZeroDivisionError) /\
  (fst (handle_events sensor_failing sampling_due_world) = Ok tt /\
   voltage_sense sensor_failing = None /\
   fst (tick sensor_failing sampling_due_world) = Raise SensorFault).
Proof.
  assert (Hn : ~ estimable (voltage (begin_release_world [3.0]))).
  { intros (v & rest & Hv & Hne). simpl in Hv. inversion Hv. subst.
    apply Hne. reflexivity. }
  split.
  - repeat (split; [reflexivity || exact Hn|]).
    apply (proj2 (tick_fault_cases all_released (begin_release_world [3.0])
                    ZeroDivisionError)).
    left. repeat split; try reflexivity. exact Hn.
  - repeat (split; [reflexivity|]).
    apply (proj2 (tick_fault_cases sensor_failing sampling_due_world
                    SensorFault)).
    right. repeat split; reflexivity.
Defined.

(** *** The main loop: passes without effect, cancelled cycles, cadence *)

Lemma tick_idle_poll (p : pins) (w : world) :
  monitoring w = false ->
  arbitrated w p <> Complete ->
  tick p w = (Ok tt, snd (poll p w)).
Proof.
  intros Hm Hne. destruct (poll_frame p w) as (Hpm & _).
  rewrite tick_unfold, handle_events_arbitrated.
  unfold transition. rewrite bind_get, Hpm, Hm.
  destruct (arbitrated w p); try contradiction;
    (unfold ret; apply sampling_idle; rewrite Hpm; exact Hm).
Qed.

(** X10. In Idle every pass on which no Complete is arbitrated, whatever
    else the buttons do, only advances the counter and updates the
    detectors' memory: the machine stays Idle, the series and the printed
    text are untouched, and the sensor is not read, even on the pass on
    which the counter wraps. *)
Theorem idle_pass_without_effect (p : pins) (w : world) :
  monitoring w = false ->
  arbitrated w p <> Complete ->
  exists w',
    tick p w = (Ok tt, w') /\ w' = snd (poll p w) /\
    monitoring w' = false /\ voltage w' = voltage w /\
    stdout w' = stdout w /\ sensor_reads w' = sensor_reads w.
Proof.
  intros Hm Hne. exists (snd (poll p w)).
  destruct (poll_frame p w) as (Hpm & Hpv & Hpo & Hps & _).
  split; [apply tick_idle_poll; assumption|].
  split; [reflexivity|]. rewrite Hpm, Hpv, Hpo, Hps. auto.
Qed.

(** Idle, "charge begin" and "charge complete" both held down, one pass
    before the counter wraps. *)
Lemma idle_pass_without_effect_witness :
  let w := set_b_cb_down true complete_release_world in
  monitoring w = false /\ arbitrated w all_released <> Complete /\
  exists w',
    tick all_released w = (Ok tt, w') /\ w' = snd (poll all_released w) /\
    monitoring w' = false /\ voltage w' = voltage w /\
    stdout w' = stdout w /\ sensor_reads w' = sensor_reads w.
Proof.
  cbv zeta.
  assert (Hne : arbitrated (set_b_cb_down true complete_release_world)
                           all_released <> Complete)
    by (vm_compute; discriminate).
  split; [reflexivity|]. split; [exact Hne|].
  apply (idle_pass_without_effect all_released
           (set_b_cb_down true complete_release_world));
    [reflexivity|exact Hne].
Defined.

(** X11. A Complete or an Abort arbitrated while monitoring cancels the
    cycle within the pass: exactly one line, an error line, is printed, the
    machine is Idle at the end of the pass, the series is kept as it was,
    no report is printed and the sensor is not read, even on the pass on
    which the counter wraps. *)
Theorem inconsistent_signal_cancels (p : pins) (w : world) :
  monitoring w = true ->
  arbitrated w p = Complete \/ arbitrated w p = Abort ->
  exists w' l,
    tick p w = (Ok tt, w') /\
    monitoring w' = false /\ voltage w' = voltage w /\
    stdout w' = stdout w ++ [l] /\ is_error_line l = true /\
    closes_report l = false /\
    sensor_reads w' = sensor_reads w /\
    half_sec w' = next_half_sec (half_sec w).
Proof.
  intros Hm He. destruct (poll_frame p w) as (Hpm & Hpv & Hpo & Hps & Hph).
  rewrite tick_unfold, handle_events_arbitrated.
  unfold transition. rewrite bind_get, Hpm, Hm.
  destruct He as [-> | ->]; rewrite bind_print; unfold modify;
    rewrite sampling_idle by reflexivity;
    do 2 eexists; (split; [reflexivity|]);
    destruct (snd (poll p w)); simpl in *; subst; repeat split.
Qed.

Lemma inconsistent_signal_cancels_witness :
  let w := set_b_cc_down true sampling_due_world in
  monitoring w = true /\ arbitrated w all_released = Complete /\
  exists w' l,
    tick all_released w = (Ok tt, w') /\
    monitoring w' = false /\ voltage w' = voltage w /\
    stdout w' = stdout w ++ [l] /\ is_error_line l = true /\
    closes_report l = false /\
    sensor_reads w' = sensor_reads w /\
    half_sec w' = next_half_sec (half_sec w).
Proof.
  cbv zeta. split; [reflexivity|]. split; [reflexivity|].
  apply (inconsistent_signal_cancels all_released
           (set_b_cc_down true sampling_due_world));
    [reflexivity|left; reflexivity].
Defined.

Lemma buttons_up_no_event (p : pins) (w : world) :
  buttons_up w -> arbitrated w p = NoEvent.
Proof.
  intros (Hb & Hc & Ha). unfold arbitrated. rewrite Hb, Hc, Ha. reflexivity.
Qed.

Lemma quiet_buttons_up (p : pins) (w : world) :
  quiet p -> buttons_up (snd (tick p w)).
Proof.
  intros (Hb & Hc & Ha). pose proof (tick_buttons p w) as H.
  cbv zeta in H. rewrite Hb, Hc, Ha in H. exact H.
Qed.

Lemma tick_monitoring_no_event (p : pins) (w : world) :
  monitoring w = true ->
  arbitrated w p = NoEvent ->
  tick p w = sampling p (snd (poll p w)).
Proof.
  intros Hm He. destruct (poll_frame p w) as (Hpm & _).
  rewrite tick_unfold, handle_events_arbitrated, He.
  unfold transition. rewrite bind_get, Hpm, Hm. reflexivity.
Qed.

(** One pass while monitoring with no button activity. *)
Lemma quiet_tick_monitoring (p : pins) (w : world) :
  quiet p -> voltage_sense p <> None ->
  buttons_up w -> monitoring w = true ->
  (0 <= half_sec w < 60)%Z ->
  exists w1 extra,
    tick p w = (Ok tt, w1) /\ buttons_up w1 /\ monitoring w1 = true /\
    half_sec w1 = next_half_sec (half_sec w) /\
    voltage w1 = voltage w ++ extra /\
    Z.of_nat (List.length extra) =
    (if (half_sec w + 1 =? 60)%Z then 1 else 0)%Z.
Proof.
  intros Hq Hs Hup Hm Hrange.
  destruct (poll_frame p w) as (Hpm & Hpv & _ & _ & Hph).
  pose proof (tick_monitoring_no_event p w Hm (buttons_up_no_event p w Hup))
    as Ht.
  assert (Hstep : exists w1 extra,
             tick p w = (Ok tt, w1) /\ monitoring w1 = true /\
             half_sec w1 = next_half_sec (half_sec w) /\
             voltage w1 = voltage w ++ extra /\
             Z.of_nat (List.length extra) =
             (if (half_sec w + 1 =? 60)%Z then 1 else 0)%Z).
  { unfold next_half_sec in *.
    destruct (half_sec w + 1 =? 60)%Z eqn:E.
    - destruct (voltage_sense p) as [value|] eqn:Hv; [|contradiction].
      rewrite (sampling_read p (snd (poll p w)) value) in Ht;
        [|rewrite Hpm; exact Hm|exact Hph|exact Hv].
      do 2 eexists. split; [exact Ht|]. simpl.
      split; [reflexivity|]. split; [reflexivity|].
      rewrite Hpv. split; reflexivity.
    - apply Z.eqb_neq in E.
      assert (Hnz : half_sec (snd (poll p w)) <> 0%Z).
      { rewrite Hph. lia. }
      rewrite (sampling_off_boundary p (snd (poll p w)) Hnz) in Ht.
      exists (snd (poll p w)), []. split; [exact Ht|].
      rewrite Hpm, Hph, Hpv, app_nil_r. auto. }
  destruct Hstep as (w1 & extra & Htick & Hrest).
  exists w1, extra. split; [exact Htick|]. split; [|exact Hrest].
  pose proof (quiet_buttons_up p w Hq) as Hup'.
  rewrite Htick in Hup'. exact Hup'.
Qed.

(** X12. Cadence of the sampler.  While monitoring with no button activity
    and a working sensor, a run of n passes from a counter value h in
    0..59 completes, stays in Monitoring, keeps the samples it had and
    appends exactly floor((h + n) / 60) new ones: one sample per sixty
    passes, taken on the passes on which the counter wraps. *)
Theorem sampling_cadence (ps : list pins) (w : world) :
  Forall (fun p => quiet p /\ voltage_sense p <> None) ps ->
  buttons_up w ->
  monitoring w = true ->
  (0 <= half_sec w < 60)%Z ->
  exists w' new,
    run ps w = (Ok tt, w') /\ monitoring w' = true /\
    half_sec w' = ((half_sec w + len ps) mod 60)%Z /\
    voltage w' = voltage w ++ new /\
    Z.of_nat (List.length new) = ((half_sec w + len ps) / 60)%Z.
Proof.
  revert w. induction ps as [|p ps IH]; intros w Hall Hup Hm Hh.
  - exists w, []. simpl. change (len (@nil pins)) with 0%Z.
    rewrite Z.add_0_r, app_nil_r, Z.mod_small, Z.div_small by exact Hh.
    auto.
  - inversion Hall as [|p' ps' [Hq Hs] Hall']. subst.
    destruct (quiet_tick_monitoring p w Hq Hs Hup Hm Hh)
      as (w1 & extra & Ht & Hup1 & Hm1 & Hh1 & Hv1 & Hn1).
    destruct (next_half_sec_range (half_sec w) Hh) as [Hr Hmod].
    rewrite <- Hh1 in Hr.
    destruct (IH w1 Hall' Hup1 Hm1 Hr) as (w' & new & Hrun & Hm' & Hh' & Hv' & Hn').
    exists w', (extra ++ new).
    simpl. rewrite (bind_eq_ok _ _ _ _ _ Ht).
    split; [exact Hrun|]. split; [exact Hm'|].
    rewrite len_cons. split; [|split].
    + rewrite Hh', Hh1, Hmod, Zplus_mod_idemp_l. f_equal. lia.
    + rewrite Hv', Hv1, app_assoc. reflexivity.
    + rewrite length_app, Nat2Z.inj_add, Hn1, Hn', Hh1.
      unfold next_half_sec.
      destruct (Z.eqb_spec (half_sec w + 1) 60) as [E|E].
      * replace (half_sec w + (len ps + 1))%Z with (len ps + 1 * 60)%Z
          by lia.
        rewrite Z.div_add by lia. rewrite Z.add_0_l. lia.
      * rewrite Z.add_0_l. f_equal. lia.
Qed.

Lemma sampling_cadence_witness :
  Forall (fun p => quiet p /\ voltage_sense p <> None)
         (repeat all_released 120) /\
  buttons_up (monitoring_world []) /\
  monitoring (monitoring_world []) = true /\
  (0 <= half_sec (monitoring_world []) < 60)%Z /\
  exists w' new,
    run (repeat all_released 120) (monitoring_world []) = (Ok tt, w') /\
    monitoring w' = true /\
    half_sec w' =
    ((half_sec (monitoring_world []) + len (repeat all_released 120))
       mod 60)%Z /\
    voltage w' = voltage (monitoring_world []) ++ new /\
    Z.of_nat (List.length new) =
    ((half_sec (monitoring_world []) + len (repeat all_released 120)) / 60)%Z.
Proof.
  assert (Hall : Forall (fun p => quiet p /\ voltage_sense p <> None)
                        (repeat all_released 120)).
  { apply Forall_forall. intros p Hin. apply repeat_spec in Hin. subst p.
    split; [repeat split|discriminate]. }
  assert (Hup : buttons_up (monitoring_world [])) by (repeat split).
  assert (Hh : (0 <= half_sec (monitoring_world []) < 60)%Z)
    by (simpl; lia).
  split; [exact Hall|]. split; [exact Hup|]. split; [reflexivity|].
  split; [exact Hh|].
  apply (sampling_cadence (repeat all_released 120) (monitoring_world [])
           Hall Hup eq_refl Hh).
Defined.

(** X13. As long as "charge complete" is never pressed the script never
    leaves Idle: a run of any length, whatever the other two buttons and
    the sensor do, completes without an exception, prints nothing, leaves
    the series untouched and never reads the sensor. *)
Theorem idle_until_complete (ps : list pins) (w : world) :
  Forall (fun p => s_charge_complete p = true) ps ->
  b_cc_down w = false ->
  monitoring w = false ->
  exists w',
    run ps w = (Ok tt, w') /\ monitoring w' = false /\
    voltage w' = voltage w /\ stdout w' = stdout w /\
    sensor_reads w' = sensor_reads w.
Proof.
  revert w. induction ps as [|p ps IH]; intros w Hall Hcc Hm.
  - exists w. simpl. auto.
  - inversion Hall as [|p' ps' Hp Hall']. subst.
    assert (Hne : arbitrated w p <> Complete).
    { unfold arbitrated, arbitrate. rewrite Hcc. simpl.
      destruct (b_cb_down w && s_charge_begin p);
        [discriminate|destruct (b_ca_down w && s_charge_abort p);
                      discriminate]. }
    pose proof (tick_idle_poll p w Hm Hne) as Ht.
    destruct (poll_frame p w) as (Hm1 & Hv1 & Ho1 & Hs1 & _).
    rewrite Hm in Hm1. set (w1 := snd (poll p w)) in *.
    assert (Hcc1 : b_cc_down w1 = false).
    { subst w1. rewrite poll_eq. simpl. rewrite Hp. reflexivity. }
    destruct (IH w1 Hall' Hcc1 Hm1) as (w' & Hrun & Hm' & Hv' & Ho' & Hs').
    exists w'. simpl. rewrite (bind_eq_ok _ _ _ _ _ Ht).
    split; [exact Hrun|]. split; [exact Hm'|].
    split; [congruence|]. split; congruence.
Qed.

Lemma idle_until_complete_witness :
  Forall (fun p => s_charge_complete p = true)
         (repeat begin_pressed 2 ++ repeat sensor_failing 70) /\
  b_cc_down init = false /\ monitoring init = false /\
  exists w',
    run (repeat begin_pressed 2 ++ repeat sensor_failing 70) init =
    (Ok tt, w') /\ monitoring w' = false /\
    voltage w' = voltage init /\ stdout w' = stdout init /\
    sensor_reads w' = sensor_reads init.
Proof.
  assert (Hall : Forall (fun p => s_charge_complete p = true)
                        (repeat begin_pressed 2 ++ repeat sensor_failing 70)).
  { apply Forall_app. split; apply Forall_forall; intros p Hin;
      apply repeat_spec in Hin; subst p; reflexivity. }
  split; [exact Hall|]. split; [reflexivity|]. split; [reflexivity|].
  apply (idle_until_complete _ init Hall); reflexivity.
Defined.

(** *** The sample series along a run *)

Lemma volts_of_range (value : Z) :
  adc_range value -> 0 <= volts_of value /\ volts_of value < 4.825.
Proof.
  intros [Hlo Hhi]. split.
  - apply Qle_trans with (volts_of 0); [discriminate|].
    apply volts_of_le. exact Hlo.
  - apply Qle_lt_trans with (volts_of 65535); [|reflexivity].
    apply volts_of_le. lia.
Qed.

Lemma tick_series_cases (p : pins) (w : world) :
  let w' := snd (tick p w) in
  voltage w' = voltage w \/ voltage w' = [] \/
  exists value,
    voltage_sense p = Some value /\
    (voltage w' = voltage w ++ [volts_of value] \/
     voltage w' = [volts_of value]).
Proof.
  cbv zeta.
  pose proof (handle_events_series p w) as He. cbv zeta in He.
  destruct (tick_world p w) as [Ht|[_ Ht]]; rewrite Ht.
  - destruct He as [He|[He _]]; auto.
  - pose proof (sampling_cases p (snd (handle_events p w))) as Hs.
    cbv zeta in Hs.
    destruct Hs as (_ & _ & [Hs|(_ & _ & value & Hv & Hs)]); rewrite Hs.
    + destruct He as [He|[He _]]; auto.
    + right. right. exists value. split; [exact Hv|].
      destruct He as [He|[He _]]; rewrite He; auto.
Qed.

(** X14. Every sample in the series comes from [get_volts]: along any run,
    also one that ends in an exception, if the sensor delivers 16-bit
    values and the series starts with samples in [0, 4.825), then every
    sample of the series is in [0, 4.825). *)
Theorem samples_in_range (ps : list pins) (w : world) :
  (forall p value,
      In p ps -> voltage_sense p = Some value -> adc_range value) ->
  Forall (fun v => 0 <= v /\ v < 4.825) (voltage w) ->
  Forall (fun v => 0 <= v /\ v < 4.825) (voltage (snd (run ps w))).
Proof.
  revert w. induction ps as [|p ps IH]; intros w Hadc Hw.
  - exact Hw.
  - assert (Hw1 : Forall (fun v => 0 <= v /\ v < 4.825)
                         (voltage (snd (tick p w)))).
    { pose proof (tick_series_cases p w) as Hc. cbv zeta in Hc.
      destruct Hc as [Hc|[Hc|(value & Hv & [Hc|Hc])]]; rewrite Hc.
      - exact Hw.
      - constructor.
      - apply Forall_app. split; [exact Hw|].
        constructor; [|constructor].
        apply volts_of_range. apply (Hadc p value); [left; reflexivity|exact Hv].
      - constructor; [|constructor].
        apply volts_of_range. apply (Hadc p value); [left; reflexivity|exact Hv]. }
    simpl. unfold bind.
    destruct (tick p w) as [[[]|e] w1]; simpl in *.
    + apply IH; [|exact Hw1].
      intros q value Hin. apply Hadc. right. exact Hin.
    + exact Hw1.
Qed.

Lemma samples_in_range_witness :
  (forall p value,
      In p (discharge_cycle 118) -> voltage_sense p = Some value ->
      adc_range value) /\
  Forall (fun v => 0 <= v /\ v < 4.825) (voltage init) /\
  List.length (voltage (snd (run (discharge_cycle 118) init))) = 2%nat /\
  Forall (fun v => 0 <= v /\ v < 4.825)
         (voltage (snd (run (discharge_cycle 118) init))).
Proof.
  assert (Hadc : forall p value,
             In p (discharge_cycle 118) -> voltage_sense p = Some value ->
             adc_range value).
  { assert (HF : Forall (fun p => voltage_sense p = Some 40000%Z)
                        (discharge_cycle 118)).
    { unfold discharge_cycle. apply Forall_app. split.
      - repeat constructor.
      - apply Forall_app. split.
        + apply Forall_forall. intros q Hq. apply repeat_spec in Hq.
          subst q. reflexivity.
        + repeat constructor. }
    intros p value Hin Hv.
    rewrite (proj1 (Forall_forall _ _) HF p Hin) in Hv.
    inversion Hv. unfold adc_range. lia. }
  split; [exact Hadc|]. split; [constructor|].
  split; [vm_compute; reflexivity|].
  apply (samples_in_range (discharge_cycle 118) init Hadc). constructor.
Defined.

(** ** Properties of the low-voltage alarm *)

Lemma monitor_get_volts_ok (value : Z) (w : Monitor.world) :
  Monitor.get_volts (Some value) w =
  (Ok (volts_of value),
   Monitor.set_sensor_reads (S (Monitor.sensor_reads w)) w).
Proof. reflexivity. Qed.

Lemma monitor_lt_threshold (value : Z) :
  Monitor.lt (volts_of value) 2.8 = (value <=? 38034)%Z.
Proof.
  unfold Monitor.lt.
  destruct (Z.leb_spec value 38034) as [Hle|Hgt].
  - destruct (Qle_bool 2.8 (volts_of value)) eqn:E; [|reflexivity].
    apply Qle_bool_iff in E. exfalso.
    apply (Qlt_irrefl 2.8).
    apply Qle_lt_trans with (volts_of value); [exact E|].
    apply Qle_lt_trans with (volts_of 38034); [|reflexivity].
    apply volts_of_le. exact Hle.
  - assert (E : Qle_bool 2.8 (volts_of value) = true).
    { apply Qle_bool_iff.
      apply Qle_trans with (volts_of 38035); [discriminate|].
      apply volts_of_le. lia. }
    rewrite E. reflexivity.
Qed.

Lemma monitor_pass_ok (value : Z) (w : Monitor.world) :
  Monitor.pass (Some value) w =
  (Ok tt,
   {| Monitor.duty_cycle := alarm_level value;
      Monitor.stdout := Monitor.stdout w ++ [alarm_line value];
      Monitor.sensor_reads := S (Monitor.sensor_reads w) |}).
Proof.
  unfold Monitor.pass, bind. rewrite monitor_get_volts_ok.
  unfold Monitor.print, modify. rewrite monitor_lt_threshold.
  unfold alarm_level. destruct (value <=? 38034)%Z; reflexivity.
Qed.

(** X15. One pass of the alarm with a working sensor: the voltage is
    printed, and the buzzer is driven (duty cycle 30000) exactly when the
    sensor value is at most 38034, which is exactly when the computed
    voltage is below 2.8; otherwise it is switched off.  The previous state
    of the buzzer plays no part: there is no latch and no hysteresis. *)
Theorem alarm_threshold (value : Z) (w : Monitor.world) :
  exists w',
    Monitor.pass (Some value) w = (Ok tt, w') /\
    Monitor.stdout w' = Monitor.stdout w ++ [Fmt "%f" [volts_of value]] /\
    (volts_of value < 2.8 <-> (value <= 38034)%Z) /\
    ((value <= 38034)%Z -> Monitor.duty_cycle w' = 30000%Z) /\
    ((38034 < value)%Z -> Monitor.duty_cycle w' = 0%Z).
Proof.
  eexists. split; [apply monitor_pass_ok|]. simpl.
  split; [reflexivity|].
  pose proof (monitor_lt_threshold value) as Hlt. unfold Monitor.lt in Hlt.
  split; [|split].
  - split.
    + intro Hv. apply Z.leb_le. rewrite <- Hlt.
      destruct (Qle_bool 2.8 (volts_of value)) eqn:E; [|reflexivity].
      apply Qle_bool_iff in E. exfalso. apply (Qlt_irrefl 2.8).
      apply Qle_lt_trans with (volts_of value); assumption.
    + intro Hz. apply Z.leb_le in Hz. rewrite Hz in Hlt.
      apply Qnot_le_lt. intro Hle. apply Qle_bool_iff in Hle.
      rewrite Hle in Hlt. discriminate Hlt.
  - intro Hz. unfold alarm_level. apply Z.leb_le in Hz. rewrite Hz.
    reflexivity.
  - intro Hz. unfold alarm_level. apply Z.leb_gt in Hz. rewrite Hz.
    reflexivity.
Qed.

Lemma alarm_threshold_witness :
  (38034 <= 38034)%Z /\ (38034 < 38035)%Z /\
  Monitor.duty_cycle (snd (Monitor.pass (Some 38034%Z) Monitor.init)) =
  30000%Z /\
  Monitor.duty_cycle
    (snd (Monitor.pass (Some 38035%Z)
                       (snd (Monitor.pass (Some 38034%Z) Monitor.init)))) =
  0%Z.
Proof.
  split; [lia|]. split; [lia|].
  destruct (alarm_threshold 38034 Monitor.init) as (w1 & H1 & _ & _ & Hon & _).
  destruct (alarm_threshold 38035 w1) as (w2 & H2 & _ & _ & _ & Hoff).
  rewrite H1. cbn [snd]. rewrite H2. cbn [snd].
  split; [apply Hon; lia|apply Hoff; lia].
Defined.

Lemma monitor_loop_ok (values : list Z) (w : Monitor.world) :
  Monitor.loop (map Some values) w =
  (Ok tt,
   {| Monitor.duty_cycle :=
        last (map alarm_level values) (Monitor.duty_cycle w);
      Monitor.stdout := Monitor.stdout w ++ map alarm_line values;
      Monitor.sensor_reads :=
        (List.length values + Monitor.sensor_reads w)%nat |}).
Proof.
  revert w. induction values as [|v values IH]; intro w.
  - destruct w. simpl. unfold ret. rewrite app_nil_r. reflexivity.
  - change (map Some (v :: values)) with (Some v :: map Some values).
    change (Monitor.loop (Some v :: map Some values))
      with (bind (Monitor.pass (Some v))
                 (fun _ => Monitor.loop (map Some values))).
    unfold bind. rewrite monitor_pass_ok, IH.
    change (map alarm_level (v :: values))
      with (alarm_level v :: map alarm_level values).
    rewrite last_cons.
    cbn [Monitor.duty_cycle Monitor.stdout Monitor.sensor_reads].
    rewrite <- app_assoc. simpl List.length. simpl app.
    rewrite Nat.add_succ_r. reflexivity.
Qed.

Lemma monitor_loop_app (a b : list (option Z)) (w : Monitor.world) :
  Monitor.loop (a ++ b) w =
  match Monitor.loop a w with
  | (Ok _, w1) => Monitor.loop b w1
  | (Raise e, w1) => (Raise e, w1)
  end.
Proof.
  revert w. induction a as [|x a IH]; intro w; simpl.
  - reflexivity.
  - unfold bind. destruct (Monitor.pass x w) as [[u|e] w1];
      [apply IH|reflexivity].
Qed.

(** X16. When a sensor read raises, the alarm script ends with that
    exception in the pass of the failed read, before anything is printed
    and before the buzzer is touched; later readings are never taken.  The
    buzzer is left in the state decided by the last successful reading (off
    if there was none), and the output holds one line per successful
    reading. *)
Theorem alarm_sensor_fault (values : list Z) (rest : list (option Z))
        (w : Monitor.world) :
  exists w',
    Monitor.main (map Some values ++ None :: rest) w =
    (Raise SensorFault, w') /\
    Monitor.duty_cycle w' = last (map alarm_level values) 0%Z /\
    Monitor.stdout w' = Monitor.stdout w ++ map alarm_line values /\
    Monitor.sensor_reads w' =
    S (List.length values + Monitor.sensor_reads w).
Proof.
  eexists. split.
  - unfold Monitor.main, Monitor.startup, Monitor.alert_on,
      Monitor.alert_off, bind, modify.
    rewrite monitor_loop_app, monitor_loop_ok. reflexivity.
  - destruct w. simpl. auto.
Qed.

(** X17. The whole alarm script on readings that all succeed: it runs to
    the end of the readings, prints one line per reading in order, reads
    the sensor once per pass, and leaves the buzzer in the state decided by
    the last reading alone; with no reading at all the buzzer is off after
    the start-up beep. *)
Theorem alarm_follows_last_reading (values : list Z) (w : Monitor.world) :
  exists w',
    Monitor.main (map Some values) w = (Ok tt, w') /\
    Monitor.duty_cycle w' = last (map alarm_level values) 0%Z /\
    Monitor.stdout w' = Monitor.stdout w ++ map alarm_line values /\
    Monitor.sensor_reads w' =
    (List.length values + Monitor.sensor_reads w)%nat.
Proof.
  eexists. split.
  - unfold Monitor.main, Monitor.startup, Monitor.alert_on,
      Monitor.alert_off, bind, modify.
    rewrite monitor_loop_ok. reflexivity.
  - destruct w. simpl. auto.
Qed.

(** X18. The two scripts convert the sensor value in the same way: for the
    same reading, [get_volts] of the alarm and [get_volts] of the capacity
    monitor return the same voltage or fail with the same exception. *)
Theorem get_volts_agree (p : pins) (w : world) (mw : Monitor.world) :
  fst (Monitor.get_volts (voltage_sense p) mw) = fst (get_volts p w).
Proof.
  destruct (voltage_sense p) as [value|] eqn:Hs.
  - rewrite monitor_get_volts_ok, (get_volts_ok p w value Hs). reflexivity.
  - rewrite (get_volts_none p w Hs). reflexivity.
Qed.

(** ** Mode changes and printed output of a pass *)

Lemma transition_mode (e : BoundaryEvent) (w : world) :
  (fst (transition e w) = Ok tt ->
   monitoring (snd (transition e w)) = next_mode (monitoring w) e) /\
  (forall x, fst (transition e w) = Raise x ->
             monitoring (snd (transition e w)) = monitoring w).
Proof.
  destruct (monitoring w) eqn:Hm.
  - destruct e;
      try (unfold transition; rewrite bind_get, Hm; simpl;
           split; [intros _; solve [reflexivity | exact Hm]
                  |intros x Hx; discriminate Hx]).
    destruct (voltage w) as [|v rest] eqn:Hv.
    + rewrite (transition_begin_empty w Hm Hv). simpl.
      split; [discriminate|]. intros _ _. exact Hm.
    + destruct (Qeq_dec v (last rest v)) as [Heq|Hne].
      * rewrite (transition_begin_flat w v rest Hm Hv Heq). simpl.
        split; [discriminate|]. intros _ _. exact Hm.
      * rewrite (transition_begin_ok w v rest Hm Hv Hne). simpl.
        split; [reflexivity|discriminate].
  - unfold transition. rewrite bind_get, Hm.
    destruct e; simpl;
      (split; [intros _; solve [reflexivity | exact Hm]
              |intros x Hx; discriminate Hx]).
Qed.

Lemma sampling_mode (p : pins) (w : world) :
  monitoring (snd (sampling p w)) = monitoring w.
Proof. apply (sampling_cases p w). Qed.

(** X19. The mode changes only in response to an arbitrated event.  A pass
    on which no event is arbitrated leaves [monitoring] as it was, whether
    or not the pass completes; a pass that completes leaves Monitoring on
    any event and enters it only on Complete from Idle; and a pass that
    ends in [ZeroDivisionError] leaves the machine in Monitoring. *)
Theorem mode_changes_on_events (p : pins) (w : world) :
  (arbitrated w p = NoEvent ->
   monitoring (snd (tick p w)) = monitoring w) /\
  (fst (tick p w) = Ok tt ->
   monitoring (snd (tick p w)) = next_mode (monitoring w) (arbitrated w p)) /\
  (fst (tick p w) = Raise ZeroDivisionError ->
   monitoring w = true /\ monitoring (snd (tick p w)) = true).
Proof.
  destruct (poll_frame p w) as (Hpm & _).
  destruct (transition_mode (arbitrated w p) (snd (poll p w))) as [Hok Hraise].
  rewrite Hpm in Hok, Hraise.
  assert (Hcases :
    (fst (tick p w) = fst (handle_events p w) /\
     snd (tick p w) = snd (handle_events p w) /\
     exists x, fst (handle_events p w) = Raise x) \/
    (fst (handle_events p w) = Ok tt /\
     tick p w = sampling p (snd (handle_events p w)))).
  { rewrite tick_unfold.
    destruct (handle_events p w) as [[[]|x] w1]; simpl; [right|left]; eauto. }
  rewrite handle_events_arbitrated in Hcases.
  split; [|split].
  - intro Hne.
    destruct Hcases as [(_ & Hs & x & Hx)|(Hh & Ht)].
    + rewrite Hs. apply (Hraise x Hx).
    + rewrite Ht, sampling_mode, (Hok Hh), Hne.
      destruct (monitoring w); reflexivity.
  - intro Htick.
    destruct Hcases as [(Hf & _ & x & Hx)|(Hh & Ht)].
    + rewrite Hf, Hx in Htick. discriminate Htick.
    + rewrite Ht, sampling_mode. apply (Hok Hh).
  - intro Htick.
    destruct Hcases as [(_ & Hs & x & Hx)|(_ & Ht)].
    + destruct (transition_raises _ _ _ Hx) as (_ & Hm & _).
      rewrite Hpm in Hm. split; [exact Hm|].
      rewrite Hs, (Hraise x Hx). exact Hm.
    + exfalso. rewrite Ht in Htick. apply sampling_raises in Htick.
      destruct Htick as (Hd & _). discriminate Hd.
Qed.

Lemma mode_changes_on_events_witness :
  (arbitrated sampling_due_world sensor_failing = NoEvent /\
   monitoring (snd (tick sensor_failing sampling_due_world)) =
   monitoring sampling_due_world) /\
  (fst (tick all_released complete_release_world) = Ok tt /\
   monitoring (snd (tick all_released complete_release_world)) = true) /\
  (fst (tick all_released (begin_release_world [])) =
   Raise ZeroDivisionError /\
   monitoring (snd (tick all_released (begin_release_world []))) = true).
Proof.
  split; [|split].
  - split; [reflexivity|].
    apply (proj1 (mode_changes_on_events sensor_failing sampling_due_world)).
    reflexivity.
  - assert (Hok : fst (tick all_released complete_release_world) = Ok tt)
      by reflexivity.
    split; [exact Hok|].
    rewrite (proj1 (proj2 (mode_changes_on_events all_released
                             complete_release_world)) Hok).
    reflexivity.
  - assert (Hf : fst (tick all_released (begin_release_world [])) =
                 Raise ZeroDivisionError) by reflexivity.
    split; [exact Hf|].
    apply (proj2 (proj2 (mode_changes_on_events all_released
                           (begin_release_world []))) Hf).
Defined.

Lemma report_count_app (a b : list line) :
  report_count (a ++ b) = (report_count a + report_count b)%nat.
Proof. unfold report_count. rewrite filter_app, length_app. reflexivity. Qed.

Lemma error_count_app (a b : list line) :
  error_count (a ++ b) = (error_count a + error_count b)%nat.
Proof. unfold error_count. rewrite filter_app, length_app. reflexivity. Qed.

(** The sampling check prints neither a report nor an error line. *)
Lemma sampling_output (p : pins) (w : world) :
  exists new,
    stdout (snd (sampling p w)) = stdout w ++ new /\
    report_count new = 0%nat /\ error_count new = 0%nat.
Proof.
  destruct (monitoring w) eqn:Hm.
  - destruct (Z.eq_dec (half_sec w) 0) as [Hh|Hh].
    + destruct (voltage_sense p) as [value|] eqn:Hs.
      * rewrite (sampling_read p w value Hm Hh Hs). simpl.
        eexists. split; [reflexivity|]. split; reflexivity.
      * rewrite (sampling_fault p w Hm Hh Hs). simpl.
        exists []. rewrite app_nil_r. auto.
    + rewrite (sampling_off_boundary p w Hh). simpl.
      exists []. rewrite app_nil_r. auto.
  - rewrite (sampling_idle p w Hm). simpl.
    exists []. rewrite app_nil_r. auto.
Qed.

(** What the state-transition block prints, by case. *)
Lemma transition_output (e : BoundaryEvent) (w : world) :
  exists new,
    stdout (snd (transition e w)) = stdout w ++ new /\
    ((monitoring w = true /\ e = Begin /\ estimable (voltage w) /\
      fst (transition e w) = Ok tt /\
      report_count new = 1%nat /\ error_count new = 0%nat) \/
     (monitoring w = true /\ (e = Complete \/ e = Abort) /\
      report_count new = 0%nat /\ error_count new = 1%nat) \/
     (~ (monitoring w = true /\ e = Begin /\ estimable (voltage w)) /\
      ~ (monitoring w = true /\ (e = Complete \/ e = Abort)) /\
      report_count new = 0%nat /\ error_count new = 0%nat)).
Proof.
  destruct (monitoring w) eqn:Hm.
  - destruct e.
    + exists []. unfold transition. rewrite bind_get, Hm. simpl.
      rewrite app_nil_r. split; [reflexivity|]. right. right.
      repeat split; try reflexivity.
      * intros (_ & H & _). discriminate H.
      * intros (_ & [H|H]); discriminate H.
    + destruct (voltage w) as [|v rest] eqn:Hv.
      * rewrite (transition_begin_empty w Hm Hv). simpl.
        eexists. split; [reflexivity|]. right. right.
        repeat split; try reflexivity.
        -- intros (_ & _ & v & rest & Hc & _). discriminate Hc.
        -- intros (_ & [H|H]); discriminate H.
      * destruct (Qeq_dec v (last rest v)) as [Heq|Hne].
        -- rewrite (transition_begin_flat w v rest Hm Hv Heq). simpl.
           eexists. split; [reflexivity|]. right. right.
           repeat split; try reflexivity.
           ++ intros (_ & _ & v' & rest' & Hc & Hn). inversion Hc. subst.
              contradiction.
           ++ intros (_ & [H|H]); discriminate H.
        -- rewrite (transition_begin_ok w v rest Hm Hv Hne). simpl.
           eexists. split; [reflexivity|]. left.
           repeat split; try reflexivity.
           exists v, rest. auto.
    + unfold transition. rewrite bind_get, Hm. simpl.
      eexists. split; [reflexivity|]. right. left.
      repeat split; auto.
    + unfold transition. rewrite bind_get, Hm. simpl.
      eexists. split; [reflexivity|]. right. left.
      repeat split; auto.
  - assert (Hidle : ~ (false = true /\ e = Begin /\ estimable (voltage w)))
      by (intros (H & _); discriminate H).
    assert (Hidle' : ~ (false = true /\ (e = Complete \/ e = Abort)))
      by (intros (H & _); discriminate H).
    unfold transition. rewrite bind_get, Hm.
    destruct e; simpl;
      try (exists []; rewrite app_nil_r; split; [reflexivity|];
           right; right; repeat split; auto).
    eexists. split; [reflexivity|]. right. right. repeat split; auto.
Qed.

(** X20. What a pass prints.  The text printed before the pass is kept and
    extended.  The new lines contain a complete capacity report, and then
    exactly one, precisely when Begin is arbitrated while monitoring a
    series that is non-empty with different first and last samples; and
    they contain an error line, and then exactly one, precisely when
    Complete or Abort is arbitrated while monitoring.  In particular no
    report is ever printed from an empty series, and none in Idle. *)
Theorem pass_output (p : pins) (w : world) :
  exists new,
    stdout (snd (tick p w)) = stdout w ++ new /\
    (report_count new = 0 \/ report_count new = 1)%nat /\
    (report_count new = 1%nat <->
     monitoring w = true /\ arbitrated w p = Begin /\
     estimable (voltage w)) /\
    (error_count new = 0 \/ error_count new = 1)%nat /\
    (error_count new = 1%nat <->
     monitoring w = true /\
     (arbitrated w p = Complete \/ arbitrated w p = Abort)).
Proof.
  destruct (poll_frame p w) as (Hpm & Hpv & Hpo & _).
  destruct (transition_output (arbitrated w p) (snd (poll p w)))
    as (new1 & Hout1 & Hcase).
  rewrite Hpm, Hpv, Hpo in *.
  rewrite <- handle_events_arbitrated in *.
  assert (Htick : exists new2,
             stdout (snd (tick p w)) = stdout w ++ new1 ++ new2 /\
             report_count new2 = 0%nat /\ error_count new2 = 0%nat).
  { destruct (tick_world p w) as [Ht|[_ Ht]]; rewrite Ht.
    - exists []. rewrite app_nil_r. auto.
    - destruct (sampling_output p (snd (handle_events p w)))
        as (new2 & Hout2 & Hr2 & He2).
      exists new2. rewrite Hout2, Hout1, app_assoc. auto. }
  destruct Htick as (new2 & Hout & Hr2 & He2).
  exists (new1 ++ new2). split; [exact Hout|].
  rewrite report_count_app, error_count_app, Hr2, He2, !Nat.add_0_r.
  destruct Hcase as [(Hm & Hb & Hest & _ & Hr & He)
                    |[(Hm & Hca & Hr & He)|(Hn1 & Hn2 & Hr & He)]];
    rewrite Hr, He.
  - split; [auto|]. split; [tauto|]. split; [auto|].
    split; [discriminate|].
    intros (_ & [H|H]); rewrite Hb in H; discriminate H.
  - split; [auto|]. split.
    + split; [discriminate|].
      intros (_ & H & _). destruct Hca as [Hc|Hc]; rewrite Hc in H;
        discriminate H.
    + split; [auto|]. tauto.
  - split; [auto|]. split.
    + split; [discriminate|]. intro H. contradiction.
    + split; [auto|]. split; [discriminate|]. intro H. contradiction.
Qed.

Lemma pass_output_witness :
  (monitoring (begin_release_world [3.3; 3.0]) = true /\
   arbitrated (begin_release_world [3.3; 3.0]) all_released = Begin /\
   estimable (voltage (begin_release_world [3.3; 3.0])) /\
   report_count
     (stdout (snd (tick all_released (begin_release_world [3.3; 3.0])))) =
   1%nat) /\
  (monitoring (begin_release_world []) = true /\
   ~ estimable (voltage (begin_release_world [])) /\
   report_count
     (stdout (snd (tick all_released (begin_release_world [])))) = 0%nat).
Proof.
  assert (He : estimable (voltage (begin_release_world [3.3; 3.0]))).
  { exists 3.3, [3.0]. split; [reflexivity|].
    simpl. intro H. apply Qeq_bool_iff in H. discriminate H. }
  assert (Hn : ~ estimable (voltage (begin_release_world []))).
  { intros (v & rest & Hc & _). discriminate Hc. }
  split.
  - repeat (split; [reflexivity || exact He|]).
    destruct (pass_output all_released (begin_release_world [3.3; 3.0]))
      as (new & Hout & _ & Hiff & _).
    rewrite Hout. simpl. apply Hiff. repeat split; try reflexivity.
    exact He.
  - split; [reflexivity|]. split; [exact Hn|].
    destruct (pass_output all_released (begin_release_world []))
      as (new & Hout & [H0|H1] & Hiff & _).
    + rewrite Hout. simpl. exact H0.
    + exfalso. apply Hn. apply (proj1 Hiff H1).
Defined.

(** ** Range of the average current and of the cutoff voltage *)

Lemma fold_left_Qplus_bounds (l : list Q) (a lo hi : Q) :
  Forall (fun v => lo <= v /\ v < hi) l ->
  a + inject_Z (len l) * lo <= fold_left Qplus l a /\
  fold_left Qplus l a <= a + inject_Z (len l) * hi.
Proof.
  revert a. induction l as [|x l IH]; intros a Hall.
  - change (inject_Z (len (@nil Q))) with 0. simpl fold_left. split; lra.
  - inversion Hall as [|x' l' [Hlo Hhi] Hall']. subst.
    destruct (IH (a + x) Hall') as [IH1 IH2].
    simpl fold_left. rewrite len_cons, inject_Z_plus.
    change (inject_Z 1) with 1. split; lra.
Qed.

Lemma len_cons_positive {A} (x : A) (l : list A) :
  0 < inject_Z (len (x :: l)).
Proof.
  change 0 with (inject_Z 0). rewrite <- Zlt_Qlt. unfold len. simpl. lia.
Qed.

(** X21. For every series of voltages a 16-bit converter can deliver on
    which the estimator returns, the average current is between 0 and
    322 mA and the adjusted cutoff voltage between 3.178 and 3.323 V. *)
Theorem cutoff_range (w : world) (l : locals) :
  fst (estimate_capacity w) = Ok l ->
  Forall (fun v => 0 <= v /\ v < 4.825) (voltage w) ->
  0 <= i_avg l /\ i_avg l * milliamps_per_amp < 322 /\
  3.178 < v_cutoff l /\ v_cutoff l <= 3.323.
Proof.
  intros H Hall. apply estimate_capacity_result in H.
  destruct H as (v & rest & Hv & _ & ->). rewrite Hv in Hall.
  destruct (fold_left_Qplus_bounds (v :: rest) 0 0 4.825 Hall) as [Hlo Hhi].
  pose proof (len_cons_positive v rest) as Hn.
  destruct (estimate_shape v rest) as (_ & _ & _ & _ & Hc).
  cbv zeta in Hc. rewrite Hc.
  set (n := inject_Z (len (v :: rest))) in *.
  assert (Hi : i_avg (estimate (v :: rest)) ==
               sum (v :: rest) / load_resistance / n) by reflexivity.
  unfold sum, load_resistance in Hi.
  set (s := fold_left Qplus (v :: rest) 0) in *.
  assert (H0 : 0 <= s / 15 / n).
  { apply Qle_shift_div_l; [exact Hn|].
    apply Qle_shift_div_l; [reflexivity|]. lra. }
  assert (H1 : s / 15 / n <= 193 # 600).
  { apply Qle_shift_div_r; [exact Hn|].
    apply Qle_shift_div_r; [reflexivity|]. lra. }
  rewrite Hi. unfold milliamps_per_amp. repeat split; lra.
Qed.

Lemma cutoff_range_witness :
  fst (estimate_capacity (monitoring_world [3.3; 3.0])) =
  Ok (estimate [3.3; 3.0]) /\
  Forall (fun v => 0 <= v /\ v < 4.825)
         (voltage (monitoring_world [3.3; 3.0])) /\
  3.178 < v_cutoff (estimate [3.3; 3.0]) /\
  v_cutoff (estimate [3.3; 3.0]) <= 3.323.
Proof.
  assert (H1 : fst (estimate_capacity (monitoring_world [3.3; 3.0])) =
               Ok (estimate [3.3; 3.0])) by reflexivity.
  assert (H2 : Forall (fun v => 0 <= v /\ v < 4.825)
                      (voltage (monitoring_world [3.3; 3.0]))).
  { repeat constructor; discriminate. }
  split; [exact H1|]. split; [exact H2|].
  apply (cutoff_range (monitoring_world [3.3; 3.0]) (estimate [3.3; 3.0])
           H1 H2).
Defined.
